(** * Authentication.js: credential and session management over a knex store

    A shallow embedding of [src/util/Authentication.js].  The class
    [Authentication] keeps two fields ([knex] and [tokenHashing]); every
    method is an [async] function that talks to two tables, [users] and
    [sessions], draws random bytes from Node's [crypto] module and hashes
    with [bcrypt].  Here a method is a computation in a state-and-exception
    monad over a [World] that holds the two tables, the random tape and the
    list of queries that reached the store. *)

From Stdlib Require Import String Ascii List Bool Arith Lia NArith.
From Stdlib Require Import Strings.Byte.
Import ListNotations.
Local Open Scope string_scope.
Local Open Scope list_scope.

(** ** JavaScript values the methods receive *)

Module JS.

(** A method argument: a string, or [undefined] when the caller left it
    out. *)
Definition Arg := option string.

(** [!v] is false exactly for a non-empty string. *)
Definition truthy (v : Arg) : bool :=
  match v with
  | Some s => negb (s =? "")
  | None => false
  end.

(** The string behind a truthy argument. *)
Definition provided (v : Arg) : option string :=
  match v with
  | Some s => if s =? "" then None else Some s
  | None => None
  end.

(** [s.split(c)] for a one-character separator: the segments between the
    occurrences of [c]; the empty string gives one empty segment. *)
Fixpoint split (c : ascii) (s : string) : list string :=
  match s with
  | EmptyString => [""]
  | String a rest =>
      if Ascii.eqb a c then "" :: split c rest
      else match split c rest with
           | seg :: segs => String a seg :: segs
           | [] => [String a ""]
           end
  end.

(** [xs[i]], [undefined] past the end. *)
Definition index {A} (xs : list A) (i : nat) : option A := nth_error xs i.

(** Does the character occur in the string? *)
Fixpoint occurs (c : ascii) (s : string) : bool :=
  match s with
  | EmptyString => false
  | String a rest => Ascii.eqb a c || occurs c rest
  end.

(** Number of occurrences of the character. *)
Fixpoint count (c : ascii) (s : string) : nat :=
  match s with
  | EmptyString => 0
  | String a rest => (if Ascii.eqb a c then 1 else 0) + count c rest
  end.

End JS.

(** ** Buffers and their hexadecimal rendering *)

Module Buffer.

Definition t := list byte.

Definition hex_digit (n : N) : ascii :=
  match n with
  | 0%N => "0" | 1%N => "1" | 2%N => "2" | 3%N => "3"
  | 4%N => "4" | 5%N => "5" | 6%N => "6" | 7%N => "7"
  | 8%N => "8" | 9%N => "9" | 10%N => "a" | 11%N => "b"
  | 12%N => "c" | 13%N => "d" | 14%N => "e" | _ => "f"
  end%char.

Definition is_hex_digit (a : ascii) : bool :=
  let n := N_of_ascii a in
  ((48 <=? n) && (n <=? 57) || (97 <=? n) && (n <=? 102))%N.

Fixpoint all_hex (s : string) : bool :=
  match s with
  | EmptyString => true
  | String a rest => is_hex_digit a && all_hex rest
  end.

(** The two lower-case digits of a byte value, high nibble first. *)
Definition hex_pair (n : N) (rest : string) : string :=
  String (hex_digit (n / 16)) (String (hex_digit (n mod 16)) rest).

(** [buf.toString("hex")]: two lower-case digits per byte. *)
Fixpoint toString_hex (buf : t) : string :=
  match buf with
  | [] => ""
  | b :: rest => hex_pair (Byte.to_N b) (toString_hex rest)
  end.

End Buffer.

(** ** The store and the random source *)

Module users.
Record row := { uuid : string; username : string; password : string }.
End users.

Module sessions.
Record row := { session_id : string; token : string; uuid : string }.
End sessions.

(** A random source: an unbounded tape of bytes and the position of the
    next unread byte. *)
Record Rng := { tape : nat -> byte; cursor : nat }.

(** A statement that reached the store. *)
Inductive Query :=
| SelectUsersWhereUsername (username : string)
| FirstUsersWhereUsername (username : string)
| SelectUsersWhereUuid (uuid : option string)
| InsertUsers (r : users.row)
| FirstSessionsWhereId (session_id : string)
| InsertSessions (r : sessions.row)
| DelSessionsWhereId (session_id : string).

(** [rng] is the source behind [crypto.randomBytes]; [uuids] is the source
    the uuid library reads, which is its own and not [crypto.randomBytes]. *)
Record World := {
  tbl_users : list users.row;
  tbl_sessions : list sessions.row;
  rng : Rng;
  uuids : Rng;
  queries : list Query
}.

(** ** Exceptions and the monad of the methods *)

Inductive Exn :=
| Error (message : string)
| TypeError (message : string).

Inductive Outcome (A : Type) :=
| Ok (a : A)
| Throw (e : Exn).
Arguments Ok {A} a.
Arguments Throw {A} e.

(** A computation runs in a world and leaves a world behind, also when it
    throws: what was written before the exception stays written. *)
Definition M (A : Type) := World -> Outcome A * World.

Definition ret {A} (a : A) : M A := fun w => (Ok a, w).

Definition throw {A} (e : Exn) : M A := fun w => (Throw e, w).

Definition bind {A B} (m : M A) (k : A -> M B) : M B :=
  fun w =>
    match m w with
    | (Ok a, w') => k a w'
    | (Throw e, w') => (Throw e, w')
    end.

(** [try { m } catch (error) { h error }] *)
Definition try_catch {A} (m : M A) (h : Exn -> M A) : M A :=
  fun w =>
    match m w with
    | (Ok a, w') => (Ok a, w')
    | (Throw e, w') => h e w'
    end.

Declare Scope js_scope.
Delimit Scope js_scope with js.
Notation "x <- m ;; k" := (bind m (fun x => k))
  (at level 61, m at next level, right associativity) : js_scope.
Notation "m ;; k" := (bind m (fun _ => k))
  (at level 61, right associativity) : js_scope.
Local Open Scope js_scope.

Definition result {A} (m : M A) (w : World) : Outcome A := fst (m w).
Definition after {A} (m : M A) (w : World) : World := snd (m w).

(** *** Random bytes *)

(** [crypto.randomBytes(n)] *)
Definition randomBytes (n : nat) : M Buffer.t :=
  fun w =>
    let g := rng w in
    (Ok (map (tape g) (seq (cursor g) n)),
     {| tbl_users := tbl_users w;
        tbl_sessions := tbl_sessions w;
        rng := {| tape := tape g; cursor := cursor g + n |};
        uuids := uuids w;
        queries := queries w |}).

(** *** Statements on the two tables *)

Definition record (q : Query) (us : list users.row) (ss : list sessions.row) : M unit :=
  fun w =>
    (Ok tt,
     {| tbl_users := us; tbl_sessions := ss; rng := rng w; uuids := uuids w;
        queries := queries w ++ [q] |}).

Definition has_username (u : string) (r : users.row) : bool :=
  users.username r =? u.

Definition has_uuid (v : option string) (r : users.row) : bool :=
  match v with
  | Some u => users.uuid r =? u
  | None => false
  end.

Definition has_session_id (sid : string) (r : sessions.row) : bool :=
  sessions.session_id r =? sid.

(** [knex("users").select(...).where("username", u)] *)
Definition users_select_where_username (u : string) : M (list users.row) :=
  fun w =>
    (record (SelectUsersWhereUsername u) (tbl_users w) (tbl_sessions w) ;;
     ret (filter (has_username u) (tbl_users w))) w.

(** [knex("users").where({ username }).first()] *)
Definition users_first_where_username (u : string) : M (option users.row) :=
  fun w =>
    (record (FirstUsersWhereUsername u) (tbl_users w) (tbl_sessions w) ;;
     ret (find (has_username u) (tbl_users w))) w.

(** [knex("users").select(...).where("uuid", v)]; [v] is a uuid or [false],
    and no row has [false] in its uuid column. *)
Definition users_select_where_uuid (v : option string) : M (list users.row) :=
  fun w =>
    (record (SelectUsersWhereUuid v) (tbl_users w) (tbl_sessions w) ;;
     ret (filter (has_uuid v) (tbl_users w))) w.

(** [knex("users").insert(r)] *)
Definition users_insert (r : users.row) : M unit :=
  fun w => record (InsertUsers r) (tbl_users w ++ [r]) (tbl_sessions w) w.

(** [knex("sessions").where({session_id: sid}).first()]; knex refuses to
    compile a query with an [undefined] binding. *)
Definition sessions_first_where_id (sid : option string) : M (option sessions.row) :=
  match sid with
  | None => throw (Error "Undefined binding(s) detected when compiling FIRST query")
  | Some sid =>
      fun w =>
        (record (FirstSessionsWhereId sid) (tbl_users w) (tbl_sessions w) ;;
         ret (find (has_session_id sid) (tbl_sessions w))) w
  end.

(** [knex("sessions").insert(r)] *)
Definition sessions_insert (r : sessions.row) : M unit :=
  fun w => record (InsertSessions r) (tbl_users w) (tbl_sessions w ++ [r]) w.

(** [knex("sessions").where({ session_id: sid }).del()]: the number of rows
    deleted. *)
Definition sessions_del_where_id (sid : string) : M nat :=
  fun w =>
    (record (DelSessionsWhereId sid) (tbl_users w)
       (filter (fun r => negb (has_session_id sid r)) (tbl_sessions w)) ;;
     ret (length (filter (has_session_id sid) (tbl_sessions w)))) w.

(** ** The libraries the class calls *)

(** [uuidv4()]: sixteen random bytes of the library's own source with the
    version and variant bits of RFC 4122 set, printed as 8-4-4-4-12
    hexadecimal digits. *)
Definition uuid_stringify (b : list N) : string :=
  let d := fun i => nth i b 0%N in
  let h := Buffer.hex_pair in
  h (d 0) (h (d 1) (h (d 2) (h (d 3) (String "-"
  (h (d 4) (h (d 5) (String "-"
  (h (d 6) (h (d 7) (String "-"
  (h (d 8) (h (d 9) (String "-"
  (h (d 10) (h (d 11) (h (d 12) (h (d 13) (h (d 14) (h (d 15) ""))))))))))))))))))).

Definition uuid_set_bits (i : nat) (n : N) : N :=
  match i with
  | 6 => N.lor (N.land n 15) 64
  | 8 => N.lor (N.land n 63) 128
  | _ => n
  end.

Definition uuidv4 : M string :=
  fun w =>
    let g := uuids w in
    let rnds := map (tape g) (seq (cursor g) 16) in
    (Ok (uuid_stringify
           (map (fun '(i, b) => uuid_set_bits i (Byte.to_N b))
                (combine (seq 0 16) rnds))),
     {| tbl_users := tbl_users w;
        tbl_sessions := tbl_sessions w;
        rng := rng w;
        uuids := {| tape := tape g; cursor := cursor g + 16 |};
        queries := queries w |}).

(** The two functions of [bcrypt] the class uses.  [bcrypt_hash data rounds
    salt] is the hash string for a given sixteen-byte salt; [bcrypt_compare
    data hash] tells whether [hash] is a hash of [data]. *)
Class Bcrypt := {
  bcrypt_hash : string -> nat -> Buffer.t -> string;
  bcrypt_compare : string -> string -> bool
}.

(** What the development relies on: a string matches each of its hashes,
    and a hash is in modular crypt format, so it starts with a dollar
    sign. *)
Class BcryptLaws (B : Bcrypt) : Prop := {
  compare_hash :
    forall data rounds salt,
      bcrypt_compare data (bcrypt_hash data rounds salt) = true;
  hash_dollar :
    forall data rounds salt,
      exists rest, bcrypt_hash data rounds salt = String "$" rest
}.

(** The promise interface of the library, as the class calls it. *)
Module bcrypt.
Section Promises.

Context {B : Bcrypt}.

(** [bcrypt.hash(data, rounds)] draws its salt itself. *)
Definition hash (data : string) (rounds : nat) : M string :=
  salt <- randomBytes 16 ;;
  ret (bcrypt_hash data rounds salt).

(** [bcrypt.compare(data, hash)] rejects when [data] is [undefined]. *)
Definition compare (data : option string) (hash : string) : M bool :=
  match data with
  | Some data => ret (bcrypt_compare data hash)
  | None => throw (Error "data and hash arguments required")
  end.

End Promises.
End bcrypt.

(** ** The class *)

Inductive Knex := Connection.

Record Authentication := {
  knex : option Knex;
  tokenHashing : bool
}.

(** [new Authentication(knex, tokenHashing = true)] *)
Definition new_Authentication (knex : option Knex) (tokenHashing : option bool) :=
  {| knex := knex;
     tokenHashing := match tokenHashing with Some b => b | None => true end |}.

(** What [register] resolves to: [{ error: message }] or [{ success: true }]. *)
Inductive RegisterResult :=
| RegError (error : string)
| RegSuccess.

(** What [login] resolves to: the token string, or [false]. *)
Inductive LoginResult :=
| LoginToken (tokenString : string)
| LoginFalse.

(** [req.eauth]; [id] is what [getUserIdFromSessionId] resolved to. *)
Module eauth.
Record User := { username : string; id : option string; token : string }.
Record t := { user : User }.
End eauth.

Module express.
Record Request := {
  authorization : option string;
  eauth : option eauth.t
}.

(** What the middleware does with [res] and [next]. *)
Inductive Reply :=
| StatusJson (status : nat) (message : string)
| Next.
End express.

Definition knex_missing : Exn :=
  Error "Knex hasn't been initiated in the AuthService class.".

Section Methods.

Context {B : Bcrypt}.
Variable this : Authentication.

(** [if(!this.knex) throw new Error(...)] *)
Definition require_knex : M unit :=
  match knex this with
  | Some _ => ret tt
  | None => throw knex_missing
  end.

(** [this.knex(table)...]: calling a missing handle is a [TypeError]. *)
Definition on_knex {A} (q : M A) : M A :=
  match knex this with
  | Some _ => q
  | None => throw (TypeError "this.knex is not a function")
  end.

(** [tok == matchTokenHash] with a string on the right. *)
Definition loose_eq (tok : option string) (s : string) : bool :=
  match tok with
  | Some t => t =? s
  | None => false
  end.

Definition userExists (username : JS.Arg) : M bool :=
  require_knex ;;
  match JS.provided username with
  | None => throw (Error "Username must be provided")
  | Some username =>
      exists_ <- on_knex (users_first_where_username username) ;;
      ret (match exists_ with Some _ => true | None => false end)
  end.

Definition register (username pwdUnhashed : JS.Arg) : M RegisterResult :=
  require_knex ;;
  match JS.provided username, JS.provided pwdUnhashed with
  | Some username, Some pwdUnhashed =>
      uuid <- uuidv4 ;;
      password <- bcrypt.hash pwdUnhashed 12 ;;
      taken <- userExists (Some username) ;;
      if taken then
        ret (RegError "An account with this username already exists")
      else
        on_knex (users_insert {| users.uuid := uuid;
                                 users.username := username;
                                 users.password := password |}) ;;
        ret RegSuccess
  | _, _ => throw (Error "Username and password must be provided")
  end.

Definition login (username password : JS.Arg) : M LoginResult :=
  require_knex ;;
  match JS.provided username, JS.provided password with
  | Some username, Some password =>
      rows <- on_knex (users_select_where_username username) ;;
      match rows with
      | [] => ret LoginFalse
      | user :: _ =>
          passwordMatches <- bcrypt.compare (Some password) (users.password user) ;;
          if negb passwordMatches then ret LoginFalse
          else
            let uuid := users.uuid user in
            sid_bytes <- randomBytes 8 ;;
            let sid := Buffer.toString_hex sid_bytes in
            token_bytes <- randomBytes 30 ;;
            let token := Buffer.toString_hex token_bytes in
            tokenHash <- (if tokenHashing this then bcrypt.hash token 10 else ret token) ;;
            on_knex (sessions_insert {| sessions.session_id := sid;
                                        sessions.token := tokenHash;
                                        sessions.uuid := uuid |}) ;;
            ret (LoginToken (sid ++ "." ++ token))
      end
  | _, _ => throw (Error "Username and password must be provided")
  end.

Definition verifyToken (tokenString : JS.Arg) : M bool :=
  require_knex ;;
  match JS.provided tokenString with
  | None => throw (Error "Token string must be provided")
  | Some tokenString =>
      let parts := JS.split "." tokenString in
      let sid := JS.index parts 0 in
      let tok := JS.index parts 1 in
      sidMatch <- on_knex (sessions_first_where_id sid) ;;
      match sidMatch with
      | None => ret false
      | Some sidMatch =>
          let matchTokenHash := sessions.token sidMatch in
          if tokenHashing this then bcrypt.compare tok matchTokenHash
          else ret (loose_eq tok matchTokenHash)
      end
  end.

Definition logout (sid : JS.Arg) : M unit :=
  require_knex ;;
  match JS.provided sid with
  | None => throw (Error "SID must be provided")
  | Some sid =>
      deletedRows <- on_knex (sessions_del_where_id sid) ;;
      ret tt
  end.

(** Resolves to the owner's uuid, or to [false] ([None] here). *)
Definition getUserIdFromSessionId (sid : JS.Arg) : M (option string) :=
  require_knex ;;
  match JS.provided sid with
  | None => throw (Error "Session ID must be provided")
  | Some sid =>
      sidMatch <- on_knex (sessions_first_where_id (Some sid)) ;;
      match sidMatch with
      | Some sidMatch => ret (Some (sessions.uuid sidMatch))
      | None => ret None
      end
  end.

(** [res.status(401).json({ message: "Unauthorized" })] *)
Definition unauthorized : express.Reply :=
  express.StatusJson 401 "Unauthorized".

(** [req.headers.authorization?.split(" ")[1]] *)
Definition bearer (req : express.Request) : JS.Arg :=
  match express.authorization req with
  | Some header => JS.index (JS.split " " header) 1
  | None => None
  end.

(** The middleware resolves to the request as it leaves it and to what it
    did with [res] and [next]; [next()] is taken to return normally. *)
Definition express_middleware (req : express.Request)
  : M (express.Request * express.Reply) :=
  try_catch
    (let token := bearer req in
     match JS.provided token with
     | None => ret (req, unauthorized)
     | Some token =>
         valid <- verifyToken (Some token) ;;
         if negb valid then ret (req, unauthorized)
         else
           let auth_sid := JS.index (JS.split "." token) 0 in
           confirmedUuid <- getUserIdFromSessionId auth_sid ;;
           rows <- on_knex (users_select_where_uuid confirmedUuid) ;;
           match rows with
           | [] => ret (req, unauthorized)
           | user :: _ =>
               ret ({| express.authorization := express.authorization req;
                       express.eauth :=
                         Some {| eauth.user :=
                                   {| eauth.username := users.username user;
                                      eauth.id := confirmedUuid;
                                      eauth.token := token |} |} |},
                    express.Next)
           end
     end)
    (fun error => ret (req, unauthorized)).

End Methods.

(** ** An instance to run the methods on

    Not bcrypt's algorithm: the hash keeps the salt in hexadecimal and the
    data in clear behind a ["$2b$"] tag, which is enough to satisfy
    [BcryptLaws] and to evaluate the methods on concrete worlds. *)

Module Plain.

Fixpoint after_dollar (s : string) : option string :=
  match s with
  | EmptyString => None
  | String a rest => if Ascii.eqb a "$" then Some rest else after_dollar rest
  end.

Definition hash (data : string) (rounds : nat) (salt : Buffer.t) : string :=
  "$2b$" ++ Buffer.toString_hex salt ++ "$" ++ data.

Definition compare (data hash : string) : bool :=
  match hash with
  | String "$" (String "2" (String "b" (String "$" rest))) =>
      match after_dollar rest with
      | Some d => d =? data
      | None => false
      end
  | _ => false
  end.

#[export] Instance bcrypt : Bcrypt :=
  {| bcrypt_hash := hash; bcrypt_compare := compare |}.

End Plain.

(** A tape that counts up from 171 (0xab), wrapping at 256. *)
Definition counting_tape (i : nat) : byte :=
  match Byte.of_N (N.of_nat ((171 + i) mod 256)) with
  | Some b => b
  | None => x00
  end.

Definition empty_world : World :=
  {| tbl_users := []; tbl_sessions := [];
     rng := {| tape := counting_tape; cursor := 0 |};
     uuids := {| tape := counting_tape; cursor := 0 |};
     queries := [] |}.

Definition auth_hashing : Authentication :=
  new_Authentication (Some Connection) None.

Definition auth_plain : Authentication :=
  new_Authentication (Some Connection) (Some false).

(** ** Notions the properties are stated with *)

(** The errors the methods raise for a missing handle or argument. *)
Definition precondition_error (e : Exn) : Prop :=
  In e [knex_missing;
        Error "Username and password must be provided";
        Error "Token string must be provided";
        Error "SID must be provided"].

(** The computation throws a precondition error and leaves the world as it
    found it: no table written, no query sent, no random byte drawn. *)
Definition rejected {A} (m : M A) (w : World) : Prop :=
  exists e, precondition_error e /\ m w = (Throw e, w).

Section Notions.

Context {B : Bcrypt}.

(** No identity row carries the username. *)
Definition unknown_user (w : World) (u : string) : Prop :=
  forall r, In r (tbl_users w) -> users.username r <> u.

(** The identity the store returns for the username does not match the
    password. *)
Definition wrong_password (w : World) (u p : string) : Prop :=
  exists r,
    find (has_username u) (tbl_users w) = Some r /\
    bcrypt_compare p (users.password r) = false.

(** The identity the store returns for the username holds a hash that
    [register] computes for the password. *)
Definition registered (w : World) (u p : string) : Prop :=
  exists r salt,
    find (has_username u) (tbl_users w) = Some r /\
    users.password r = bcrypt_hash p 12 salt.

End Notions.

(** The session id the next [login] will draw. *)
Definition next_sid (w : World) : string :=
  Buffer.toString_hex (map (tape (rng w)) (seq (cursor (rng w)) 8)).

(** The secret the next [login] will draw after the session id. *)
Definition next_secret (w : World) : string :=
  Buffer.toString_hex (map (tape (rng w)) (seq (cursor (rng w) + 8) 30)).

(** No session row carries the id. *)
Definition no_session (w : World) (sid : string) : Prop :=
  forall r, In r (tbl_sessions w) -> sessions.session_id r <> sid.

(** Number of identity rows with the username. *)
Definition identities (w : World) (u : string) : nat :=
  List.length (filter (has_username u) (tbl_users w)).

(** The world after one more query, tables and tape untouched. *)
Definition logged (q : Query) (w : World) : World :=
  {| tbl_users := tbl_users w; tbl_sessions := tbl_sessions w;
     rng := rng w; uuids := uuids w; queries := queries w ++ [q] |}.

(** The store after [register("alice", "S3cret!")] on the empty world. *)
Definition alice_world : World :=
  after (register (B:=Plain.bcrypt) auth_hashing (Some "alice") (Some "S3cret!"))
        empty_world.

(** The salt [bcrypt.hash] will draw for the token of the next [login]. *)
Definition next_salt (w : World) : Buffer.t :=
  map (tape (rng w)) (seq (cursor (rng w) + 8 + 30) 16).

Section Minting.

Context {B : Bcrypt}.

(** What the next [login] will keep in the [token] column. *)
Definition next_stored (this : Authentication) (w : World) : string :=
  if tokenHashing this then bcrypt_hash (next_secret w) 10 (next_salt w)
  else next_secret w.

(** The session row the next [login] will insert for an owner. *)
Definition next_session (this : Authentication) (w : World) (owner : string)
  : sessions.row :=
  {| sessions.session_id := next_sid w;
     sessions.token := next_stored this w;
     sessions.uuid := owner |}.

End Minting.

(** The store after [login("alice", "S3cret!")] on [alice_world], with
    token hashing on and off. *)
Definition session_world : World :=
  after (login (B:=Plain.bcrypt) auth_hashing (Some "alice") (Some "S3cret!"))
        alice_world.

Definition session_world_plain : World :=
  after (login (B:=Plain.bcrypt) auth_plain (Some "alice") (Some "S3cret!"))
        alice_world.

(** The token both logins return: the tape does not depend on the mode. *)
Definition alice_sid : string := "bbbcbdbebfc0c1c2".

Definition alice_secret : string :=
  "c3c4c5c6c7c8c9cacbcccdcecfd0d1d2d3d4d5d6d7d8d9dadbdcdddedfe0".

Definition alice_token : string := alice_sid ++ "." ++ alice_secret.

(** A token string of two hexadecimal segments, [n] and [m] characters
    long. *)
Definition token_shape (n m : nat) (tokenString : string) : bool :=
  match JS.split "." tokenString with
  | [sid; secret] =>
      Nat.eqb (String.length sid) n && Buffer.all_hex sid &&
      Nat.eqb (String.length secret) m && Buffer.all_hex secret
  | _ => false
  end.

(** The uuid the next [register] will draw. *)
Definition next_uuid (w : World) : string :=
  uuid_stringify
    (map (fun '(i, b) => uuid_set_bits i (Byte.to_N b))
         (combine (seq 0 16) (map (tape (uuids w)) (seq (cursor (uuids w)) 16)))).

(** The salt [bcrypt.hash] will draw for the password of the next
    [register]. *)
Definition next_password_salt (w : World) : Buffer.t :=
  map (tape (rng w)) (seq (cursor (rng w)) 16).

Section Registering.

Context {B : Bcrypt}.

(** The identity row the next [register] will insert. *)
Definition next_identity (w : World) (u p : string) : users.row :=
  {| users.uuid := next_uuid w;
     users.username := u;
     users.password := bcrypt_hash p 12 (next_password_salt w) |}.

End Registering.

(** What [register] resolves to when the username is taken. *)
Definition conflict : RegisterResult :=
  RegError "An account with this username already exists".

(** A second instance of the interface, in which the hash of a string that
    starts with a dollar sign is that string; every other string is hashed
    as in [Plain]. *)
Module Echo.

Definition hash (data : string) (rounds : nat) (salt : Buffer.t) : string :=
  match data with
  | String a _ => if Ascii.eqb a "$" then data else Plain.hash data rounds salt
  | EmptyString => Plain.hash data rounds salt
  end.

Definition compare (data hash : string) : bool :=
  (hash =? data) || Plain.compare data hash.

Definition bcrypt : Bcrypt :=
  {| bcrypt_hash := hash; bcrypt_compare := compare |}.

End Echo.

(** The request with the context the middleware attaches. *)
Definition attached (req : express.Request) (urow : users.row)
           (srow : sessions.row) (token : string) : express.Request :=
  {| express.authorization := express.authorization req;
     express.eauth :=
       Some {| eauth.user :=
                 {| eauth.username := users.username urow;
                    eauth.id := Some (sessions.uuid srow);
                    eauth.token := token |} |} |}.

(** [alice_world] with a session row that already carries the id the next
    login will draw. *)
Definition collision_world : World :=
  {| tbl_users := tbl_users alice_world;
     tbl_sessions := [{| sessions.session_id := alice_sid;
                         sessions.token := "00";
                         sessions.uuid := "abacadae-afb0-41b2-b3b4-b5b6b7b8b9ba" |}];
     rng := rng alice_world;
     uuids := uuids alice_world;
     queries := queries alice_world |}.

(** The second world has the tables and the random tape of the first; only
    the list of queries may differ. *)
Definition same_store (w w' : World) : Prop :=
  tbl_users w' = tbl_users w /\
  tbl_sessions w' = tbl_sessions w /\
  rng w' = rng w.

(** A computation that writes to no table and draws no random byte,
    whatever it resolves to and also when it throws. *)
Definition read_only {A} (m : M A) : Prop :=
  forall w, same_store w (after m w).

(** The usernames of the identity rows, in table order. *)
Definition usernames (w : World) : list string :=
  map users.username (tbl_users w).

(** An instance whose handle was never set. *)
Definition auth_no_knex : Authentication :=
  new_Authentication None None.

(** The store after a second [login("alice", "S3cret!")], on
    [session_world]. *)
Definition two_sessions_world : World :=
  after (login (B:=Plain.bcrypt) auth_hashing (Some "alice") (Some "S3cret!"))
        session_world.

(** A request with the given [authorization] header and no context yet. *)
Definition request (header : option string) : express.Request :=
  {| express.authorization := header; express.eauth := None |}.

(** The identity row of [alice_world]. *)
Definition alice_row : users.row :=
  {| users.uuid := "abacadae-afb0-41b2-b3b4-b5b6b7b8b9ba";
     users.username := "alice";
     users.password := "$2b$abacadaeafb0b1b2b3b4b5b6b7b8b9ba$S3cret!" |}.

(** The world with the [password] column of every identity row rewritten. *)
Definition with_passwords (f : users.row -> string) (w : World) : World :=
  {| tbl_users :=
       map (fun r => {| users.uuid := users.uuid r;
                        users.username := users.username r;
                        users.password := f r |})
           (tbl_users w);
     tbl_sessions := tbl_sessions w;
     rng := rng w;
     uuids := uuids w;
     queries := queries w |}.

Section Admitting.

Context {B : Bcrypt}.
Variable this : Authentication.

(** The conditions under which the middleware lets a request through, with
    the request it hands on. *)
Definition admitted (req : express.Request) (w : World) (req' : express.Request)
  : Prop :=
  exists token sid srow urow,
    JS.provided (bearer req) = Some token /\
    result (verifyToken this (Some token)) w = Ok true /\
    JS.index (JS.split "." token) 0 = Some sid /\
    sid <> "" /\
    find (has_session_id sid) (tbl_sessions w) = Some srow /\
    find (has_uuid (Some (sessions.uuid srow))) (tbl_users w) = Some urow /\
    req' = attached req urow srow token.

End Admitting.

(** * Properties *)

(** ** Strings, segments and hexadecimal digits *)

Lemma provided_Some (v : JS.Arg) (s : string) :
  JS.provided v = Some s <-> v = Some s /\ s <> "".
Proof.
  unfold JS.provided. destruct v as [t|].
  - destruct (String.eqb_spec t "") as [E|E]; split.
    + discriminate.
    + intros [H1 H2]. inversion H1; subst. contradiction.
    + intros H; inversion H; subst. auto.
    + intros [H1 _]. exact H1.
  - split; [discriminate | intros [H _]; discriminate].
Qed.

Lemma provided_str (s : string) : s <> "" -> JS.provided (Some s) = Some s.
Proof. intros H. apply provided_Some. auto. Qed.

Lemma provided_None (v : JS.Arg) :
  JS.truthy v = false <-> JS.provided v = None.
Proof.
  unfold JS.truthy, JS.provided. destruct v as [t|]; [|tauto].
  destruct (t =? ""); simpl; split; congruence.
Qed.

Lemma split_not_nil (c : ascii) (s : string) : JS.split c s <> [].
Proof.
  destruct s as [|a s]; simpl; [discriminate|].
  destruct (Ascii.eqb a c); [discriminate|].
  destruct (JS.split c s); discriminate.
Qed.

(** A string without the separator is its own single segment. *)
Lemma split_no_sep (c : ascii) (s : string) :
  JS.occurs c s = false -> JS.split c s = [s].
Proof.
  induction s as [|a s IH]; simpl; [reflexivity|].
  destruct (Ascii.eqb a c); simpl; [discriminate|].
  intros H. rewrite (IH H). reflexivity.
Qed.

(** The first separator ends the first segment. *)
Lemma split_app (c : ascii) (s t : string) :
  JS.occurs c s = false ->
  JS.split c (s ++ String c t) = s :: JS.split c t.
Proof.
  induction s as [|a s IH]; simpl.
  - rewrite Ascii.eqb_refl. reflexivity.
  - destruct (Ascii.eqb a c); simpl; [discriminate|].
    intros H. rewrite (IH H). reflexivity.
Qed.

Lemma split_head_nonempty (c : ascii) (s sid : string) :
  JS.index (JS.split c s) 0 = Some sid -> sid <> "" -> s <> "".
Proof.
  intros H Hsid ->. simpl in H. inversion H. auto.
Qed.

Lemma hex_pair_all_hex (b : byte) (rest : string) :
  Buffer.all_hex (Buffer.hex_pair (Byte.to_N b) rest) = Buffer.all_hex rest.
Proof. destruct b; reflexivity. Qed.

Lemma toString_hex_all_hex (buf : Buffer.t) :
  Buffer.all_hex (Buffer.toString_hex buf) = true.
Proof.
  induction buf as [|b buf IH]; [reflexivity|].
  simpl Buffer.toString_hex. rewrite hex_pair_all_hex. exact IH.
Qed.

Lemma toString_hex_length (buf : Buffer.t) :
  String.length (Buffer.toString_hex buf) = 2 * List.length buf.
Proof.
  induction buf as [|b buf IH]; [reflexivity|].
  simpl. rewrite IH. lia.
Qed.

Lemma all_hex_no_sep (c : ascii) (s : string) :
  Buffer.is_hex_digit c = false ->
  Buffer.all_hex s = true -> JS.occurs c s = false.
Proof.
  intros Hc. induction s as [|a s IH]; simpl; [reflexivity|].
  intros H. apply andb_prop in H as [Ha Hs].
  rewrite (IH Hs), orb_false_r.
  destruct (Ascii.eqb_spec a c) as [->|]; congruence.
Qed.

Lemma toString_hex_no_dot (buf : Buffer.t) :
  JS.occurs "." (Buffer.toString_hex buf) = false.
Proof.
  apply all_hex_no_sep; [reflexivity | apply toString_hex_all_hex].
Qed.

Lemma randomBytes_length (n : nat) (w : World) (buf : Buffer.t) (w' : World) :
  randomBytes n w = (Ok buf, w') -> List.length buf = n.
Proof.
  unfold randomBytes. intros H. inversion H; subst.
  rewrite length_map, length_seq. reflexivity.
Qed.

(** ** Running the methods *)

Lemma find_filter_head {A} (f : A -> bool) (l : list A) :
  find f l = hd_error (filter f l).
Proof.
  induction l as [|a l IH]; simpl; [reflexivity|].
  destruct (f a); [reflexivity | exact IH].
Qed.

Lemma find_none_iff {A} (f : A -> bool) (l : list A) :
  find f l = None <-> forall a, In a l -> f a = false.
Proof.
  split.
  - intros H a Ha. exact (find_none f l H a Ha).
  - induction l as [|a l IH]; simpl; [reflexivity|]. intros H.
    rewrite (H a (or_introl eq_refl)). apply IH. intros b Hb. apply H. now right.
Qed.

Lemma unknown_user_find (w : World) (u : string) :
  unknown_user w u <-> find (has_username u) (tbl_users w) = None.
Proof.
  rewrite find_none_iff. unfold unknown_user, has_username.
  split; intros H r Hr; specialize (H r Hr).
  - now apply String.eqb_neq.
  - now apply String.eqb_neq in H.
Qed.

Lemma no_session_find (w : World) (sid : string) :
  no_session w sid <-> find (has_session_id sid) (tbl_sessions w) = None.
Proof.
  rewrite find_none_iff. unfold no_session, has_session_id.
  split; intros H r Hr; specialize (H r Hr).
  - now apply String.eqb_neq.
  - now apply String.eqb_neq in H.
Qed.

Section Preconditions.

Context {B : Bcrypt}.
Variable this : Authentication.

Lemma precondition_knex : precondition_error knex_missing.
Proof. left. reflexivity. Qed.

Ltac no_knex :=
  exists knex_missing; split; [apply precondition_knex | reflexivity].

Lemma register_rejects (a b : JS.Arg) (w : World) :
  JS.truthy a = false ->
  rejected (register this a b) w /\ rejected (register this b a) w.
Proof.
  intros H. apply provided_None in H.
  unfold rejected, register, require_knex, bind.
  destruct (knex this); simpl.
  - rewrite H. split.
    + eexists. split; [right; left; reflexivity | reflexivity].
    + eexists. split; [right; left; reflexivity |].
      destruct (JS.provided b); reflexivity.
  - split; no_knex.
Qed.

Lemma login_rejects (a b : JS.Arg) (w : World) :
  JS.truthy a = false ->
  rejected (login this a b) w /\ rejected (login this b a) w.
Proof.
  intros H. apply provided_None in H.
  unfold rejected, login, require_knex, bind.
  destruct (knex this); simpl.
  - rewrite H. split.
    + eexists. split; [right; left; reflexivity | reflexivity].
    + eexists. split; [right; left; reflexivity |].
      destruct (JS.provided b); reflexivity.
  - split; no_knex.
Qed.

Lemma verifyToken_rejects (a : JS.Arg) (w : World) :
  JS.truthy a = false -> rejected (verifyToken this a) w.
Proof.
  intros H. apply provided_None in H.
  unfold rejected, verifyToken, require_knex, bind.
  destruct (knex this); simpl.
  - rewrite H. eexists. split; [right; right; left; reflexivity | reflexivity].
  - no_knex.
Qed.

Lemma logout_rejects (a : JS.Arg) (w : World) :
  JS.truthy a = false -> rejected (logout this a) w.
Proof.
  intros H. apply provided_None in H.
  unfold rejected, logout, require_knex, bind.
  destruct (knex this); simpl.
  - rewrite H. eexists. split; [right; right; right; left; reflexivity | reflexivity].
  - no_knex.
Qed.

(** C8. A call of [register], [login], [verifyToken] or [logout] in which
    a required argument is missing ([undefined] or the empty string)
    throws a precondition error and leaves the world exactly as it was:
    no query has reached the store, no row was written and no random byte
    was drawn.  For the two-argument methods the missing argument may be
    either one, whatever the other is. *)
Theorem C8_missing_argument_rejected (missing other : JS.Arg) (w : World) :
  JS.truthy missing = false ->
  rejected (register this missing other) w /\
  rejected (register this other missing) w /\
  rejected (login this missing other) w /\
  rejected (login this other missing) w /\
  rejected (verifyToken this missing) w /\
  rejected (logout this missing) w.
Proof.
  intros H.
  destruct (register_rejects missing other w H) as [R1 R2].
  destruct (login_rejects missing other w H) as [L1 L2].
  repeat split; auto using verifyToken_rejects, logout_rejects.
Qed.

End Preconditions.

Lemma C8_missing_argument_rejected_witness :
  JS.truthy (Some "") = false /\
  rejected (register (B:=Plain.bcrypt) auth_hashing (Some "") (Some "S3cret!")) empty_world /\
  rejected (logout auth_hashing (Some "")) empty_world.
Proof.
  split; [reflexivity|].
  pose proof (C8_missing_argument_rejected (B:=Plain.bcrypt) auth_hashing
                (Some "") (Some "S3cret!") empty_world eq_refl) as H.
  split; apply H.
Defined.

(** ** Failed logins *)

Section Login.

Context {B : Bcrypt}.
Variable this : Authentication.
Variable k : Knex.
Hypothesis Hknex : knex this = Some k.

Lemma filter_find_none {A} (f : A -> bool) (l : list A) :
  find f l = None -> filter f l = [].
Proof.
  rewrite find_filter_head. destruct (filter f l); [reflexivity | discriminate].
Qed.

Lemma filter_find_some {A} (f : A -> bool) (l : list A) (a : A) :
  find f l = Some a -> exists rest, filter f l = a :: rest.
Proof.
  rewrite find_filter_head. destruct (filter f l) as [|b rest]; [discriminate|].
  simpl. intros H. inversion H. eauto.
Qed.

Lemma login_fails (u p : string) (w : World) :
  u <> "" -> p <> "" ->
  unknown_user w u \/ wrong_password w u p ->
  login this (Some u) (Some p) w
  = (Ok LoginFalse, logged (SelectUsersWhereUsername u) w).
Proof.
  intros Hu Hp H.
  unfold login, require_knex, on_knex, bind. rewrite Hknex.
  cbn [ret]. rewrite (provided_str u Hu), (provided_str p Hp).
  unfold users_select_where_username, record, bind, ret.
  destruct H as [H | (r & Hr & Hc)].
  - apply unknown_user_find in H. rewrite (filter_find_none _ _ H). reflexivity.
  - destruct (filter_find_some _ _ _ Hr) as [rest ->].
    unfold bcrypt.compare, ret. rewrite Hc. reflexivity.
Qed.

End Login.

Section FailedLogin.

Context {B : Bcrypt}.
Variable this : Authentication.

(** C10. With a non-empty username and password and an initialised
    handle, a login that fails, because no identity has the username or
    because the stored hash does not match the password, resolves to
    [false] and leaves the [sessions] table, the [users] table and the
    random tape as they were; the only query it sent is the [select] on
    [users]. *)
Theorem C10_failed_login_no_session (k : Knex) (u p : string) (w : World) :
  knex this = Some k ->
  u <> "" -> p <> "" ->
  unknown_user w u \/ wrong_password w u p ->
  let w' := after (login this (Some u) (Some p)) w in
  result (login this (Some u) (Some p)) w = Ok LoginFalse /\
  tbl_sessions w' = tbl_sessions w /\
  tbl_users w' = tbl_users w /\
  rng w' = rng w /\
  queries w' = queries w ++ [SelectUsersWhereUsername u].
Proof.
  intros Hk Hu Hp H. unfold result, after.
  rewrite (login_fails this k Hk u p w Hu Hp H). simpl. auto.
Qed.

(** C5. In every world, a login with a wrong password for an existing
    username and a login with a username no identity has resolve to the
    same value; with an initialised handle that value is [false] in both
    cases. *)
Theorem C5_login_failures_indistinguishable (u1 p1 u2 p2 : string) (w : World) :
  u1 <> "" -> p1 <> "" -> u2 <> "" -> p2 <> "" ->
  wrong_password w u1 p1 ->
  unknown_user w u2 ->
  result (login this (Some u1) (Some p1)) w
  = result (login this (Some u2) (Some p2)) w /\
  (knex this <> None ->
   result (login this (Some u1) (Some p1)) w = Ok LoginFalse /\
   result (login this (Some u2) (Some p2)) w = Ok LoginFalse).
Proof.
  intros Hu1 Hp1 Hu2 Hp2 Hwrong Hunknown. unfold result.
  destruct (knex this) as [k|] eqn:Hk.
  - rewrite (login_fails this k Hk u1 p1 w Hu1 Hp1 (or_intror Hwrong)).
    rewrite (login_fails this k Hk u2 p2 w Hu2 Hp2 (or_introl Hunknown)).
    simpl. auto.
  - split; [|intros H; now destruct H].
    unfold login, require_knex, bind. rewrite Hk. reflexivity.
Qed.

End FailedLogin.

Lemma C10_failed_login_no_session_witness :
  result (login (B:=Plain.bcrypt) auth_hashing (Some "alice") (Some "wrong")) alice_world
  = Ok LoginFalse /\
  tbl_sessions (after (login (B:=Plain.bcrypt) auth_hashing (Some "alice") (Some "wrong"))
                  alice_world)
  = tbl_sessions alice_world.
Proof.
  pose proof (C10_failed_login_no_session (B:=Plain.bcrypt) auth_hashing Connection
                "alice" "wrong" alice_world eq_refl) as H.
  split; apply H; try discriminate; right; eexists; split; reflexivity.
Defined.

Lemma C5_login_failures_indistinguishable_witness :
  result (login (B:=Plain.bcrypt) auth_hashing (Some "alice") (Some "wrong")) alice_world
  = result (login (B:=Plain.bcrypt) auth_hashing (Some "nobody") (Some "x")) alice_world.
Proof.
  apply (C5_login_failures_indistinguishable (B:=Plain.bcrypt) auth_hashing
           "alice" "wrong" "nobody" "x" alice_world); try discriminate.
  - eexists. split; reflexivity.
  - apply unknown_user_find. reflexivity.
Defined.

(** ** Verification and logout *)

Section Sessions.

Context {B : Bcrypt}.
Variable this : Authentication.
Variable k : Knex.
Hypothesis Hknex : knex this = Some k.

(** [verifyToken] on a non-empty string: one lookup by the first segment,
    then the comparison of the second segment with the stored token. *)
Lemma verifyToken_run (s sid : string) (w : World) :
  s <> "" ->
  JS.index (JS.split "." s) 0 = Some sid ->
  verifyToken this (Some s) w =
  let w' := logged (FirstSessionsWhereId sid) w in
  match find (has_session_id sid) (tbl_sessions w) with
  | None => (Ok false, w')
  | Some r =>
      if tokenHashing this
      then bcrypt.compare (JS.index (JS.split "." s) 1) (sessions.token r) w'
      else (Ok (loose_eq (JS.index (JS.split "." s) 1) (sessions.token r)), w')
  end.
Proof.
  intros Hs Hsid.
  unfold verifyToken, require_knex, on_knex, bind. rewrite Hknex.
  cbn [ret]. rewrite (provided_str s Hs). cbv zeta. rewrite Hsid.
  unfold sessions_first_where_id, record, bind, ret, logged.
  destruct (find (has_session_id sid) (tbl_sessions w)) as [r|]; [|reflexivity].
  destruct (tokenHashing this); reflexivity.
Qed.

(** [verifyToken] writes to neither table and draws no random byte. *)
Lemma verifyToken_frame (s : JS.Arg) (w : World) :
  let w' := after (verifyToken this s) w in
  tbl_users w' = tbl_users w /\ tbl_sessions w' = tbl_sessions w /\ rng w' = rng w.
Proof.
  unfold after, verifyToken, require_knex, on_knex, bind. rewrite Hknex.
  cbn [ret]. destruct (JS.provided s) as [t|]; [|simpl; auto].
  cbv zeta. destruct (JS.index (JS.split "." t) 0) as [sid|]; [|simpl; auto].
  unfold sessions_first_where_id, record, bind, ret.
  destruct (find (has_session_id sid) (tbl_sessions w)) as [r|]; [|simpl; auto].
  destruct (tokenHashing this); [|simpl; auto].
  unfold bcrypt.compare. destruct (JS.index (JS.split "." t) 1); simpl; auto.
Qed.

Lemma logout_run (sid : string) (w : World) :
  sid <> "" ->
  logout this (Some sid) w =
  (Ok tt,
   {| tbl_users := tbl_users w;
      tbl_sessions := filter (fun r => negb (has_session_id sid r)) (tbl_sessions w);
      rng := rng w;
      uuids := uuids w;
      queries := queries w ++ [DelSessionsWhereId sid] |}).
Proof.
  intros Hsid.
  unfold logout, require_knex, on_knex, bind. rewrite Hknex.
  cbn [ret]. rewrite (provided_str sid Hsid). reflexivity.
Qed.

Lemma logout_no_session (sid : string) (w : World) :
  sid <> "" -> no_session (after (logout this (Some sid)) w) sid.
Proof.
  intros Hsid. unfold after. rewrite (logout_run sid w Hsid). simpl.
  intros r Hr E. apply filter_In in Hr as [_ Hr].
  unfold has_session_id in Hr. rewrite E, String.eqb_refl in Hr. discriminate.
Qed.

Lemma filter_all_true {A} (f : A -> bool) (l : list A) :
  (forall a, In a l -> f a = true) -> filter f l = l.
Proof.
  induction l as [|a l IH]; simpl; [reflexivity|]. intros H.
  rewrite (H a (or_introl eq_refl)). f_equal. apply IH.
  intros b Hb. apply H. now right.
Qed.

(** C6. For a non-empty session id and an initialised handle: [logout]
    succeeds and leaves no session row with that id; after it,
    [verifyToken] resolves to [false] on every token string whose first
    segment is that id; a second [logout] with the same id succeeds as
    well, and changes neither table. *)
Theorem C6_logout_revokes_and_is_idempotent (sid tokenString : string) (w : World) :
  sid <> "" ->
  JS.index (JS.split "." tokenString) 0 = Some sid ->
  let w1 := after (logout this (Some sid)) w in
  let w2 := after (logout this (Some sid)) w1 in
  result (logout this (Some sid)) w = Ok tt /\
  no_session w1 sid /\
  result (verifyToken this (Some tokenString)) w1 = Ok false /\
  result (logout this (Some sid)) w1 = Ok tt /\
  tbl_sessions w2 = tbl_sessions w1 /\
  tbl_users w2 = tbl_users w1.
Proof.
  intros Hsid Hseg w1 w2.
  assert (Hgone : no_session w1 sid) by (apply logout_no_session; exact Hsid).
  assert (Htok : tokenString <> "") by (eapply split_head_nonempty; eauto).
  repeat split.
  - unfold result. rewrite (logout_run sid w Hsid). reflexivity.
  - exact Hgone.
  - unfold result. rewrite (verifyToken_run tokenString sid w1 Htok Hseg).
    apply no_session_find in Hgone. cbv zeta. rewrite Hgone. reflexivity.
  - unfold result. rewrite (logout_run sid w1 Hsid). reflexivity.
  - unfold w2, after. rewrite (logout_run sid w1 Hsid). simpl.
    apply filter_all_true. intros r Hr. apply negb_true_iff.
    unfold has_session_id. apply String.eqb_neq. exact (Hgone r Hr).
  - unfold w2, after. rewrite (logout_run sid w1 Hsid). reflexivity.
Qed.

End Sessions.

Lemma C6_logout_revokes_and_is_idempotent_witness :
  result (verifyToken (B:=Plain.bcrypt) auth_hashing (Some alice_token)) session_world
  = Ok true /\
  result (verifyToken (B:=Plain.bcrypt) auth_hashing (Some alice_token))
         (after (logout auth_hashing (Some alice_sid)) session_world)
  = Ok false /\
  result (logout auth_hashing (Some alice_sid))
         (after (logout auth_hashing (Some alice_sid)) session_world)
  = Ok tt.
Proof.
  split; [reflexivity|].
  pose proof (C6_logout_revokes_and_is_idempotent (B:=Plain.bcrypt) auth_hashing
                Connection eq_refl alice_sid alice_token session_world) as H.
  split; apply H; solve [discriminate | reflexivity].
Defined.

(** ** Successful logins *)

Section Minted.

Context {B : Bcrypt}.
Variable this : Authentication.
Variable k : Knex.
Hypothesis Hknex : knex this = Some k.

Lemma login_succeeds (u p : string) (user : users.row) (w : World) :
  u <> "" -> p <> "" ->
  find (has_username u) (tbl_users w) = Some user ->
  bcrypt_compare p (users.password user) = true ->
  result (login this (Some u) (Some p)) w
  = Ok (LoginToken (next_sid w ++ "." ++ next_secret w)) /\
  tbl_sessions (after (login this (Some u) (Some p)) w)
  = tbl_sessions w ++ [next_session this w (users.uuid user)] /\
  tbl_users (after (login this (Some u) (Some p)) w) = tbl_users w /\
  queries (after (login this (Some u) (Some p)) w)
  = queries w ++ [SelectUsersWhereUsername u;
                  InsertSessions (next_session this w (users.uuid user))].
Proof.
  intros Hu Hp Hfind Hcmp.
  unfold result, after, login, require_knex, on_knex, bind. rewrite Hknex.
  cbn [ret]. rewrite (provided_str u Hu), (provided_str p Hp).
  unfold users_select_where_username, record, bind, ret.
  destruct (filter_find_some _ _ _ Hfind) as [rest ->].
  unfold bcrypt.compare, ret. rewrite Hcmp. cbn [negb].
  unfold next_session, next_stored, next_sid, next_secret, next_salt.
  unfold bcrypt.hash, bind, ret.
  destruct (tokenHashing this); simpl; rewrite <- app_assoc; auto.
Qed.

End Minted.

(** ** The shape of a token *)

Lemma next_sid_length (w : World) : String.length (next_sid w) = 16.
Proof.
  unfold next_sid. rewrite toString_hex_length, length_map, length_seq. reflexivity.
Qed.

Lemma next_secret_length (w : World) : String.length (next_secret w) = 60.
Proof.
  unfold next_secret. rewrite toString_hex_length, length_map, length_seq. reflexivity.
Qed.

Lemma split_token (sid secret : string) :
  JS.occurs "." sid = false -> JS.occurs "." secret = false ->
  JS.split "." (sid ++ "." ++ secret) = [sid; secret].
Proof.
  intros Hsid Hsecret. change ("." ++ secret)%string with (String "." secret).
  rewrite (split_app _ _ _ Hsid), (split_no_sep _ _ Hsecret). reflexivity.
Qed.

Lemma split_next_token (w : World) :
  JS.split "." (next_sid w ++ "." ++ next_secret w) = [next_sid w; next_secret w].
Proof. apply split_token; apply toString_hex_no_dot. Qed.

Lemma next_token_shape (w : World) :
  token_shape 16 60 (next_sid w ++ "." ++ next_secret w) = true.
Proof.
  unfold token_shape. rewrite split_next_token.
  rewrite next_sid_length, next_secret_length.
  unfold next_sid, next_secret. rewrite !toString_hex_all_hex. reflexivity.
Qed.

Section TokenShape.

Context {B : Bcrypt}.
Variable this : Authentication.

(** A login that resolves to a token has found an identity whose hash
    matches, and the token is the one the tape holds next. *)
Lemma login_token_inv (username password : JS.Arg) (w : World) (T : string) :
  result (login this username password) w = Ok (LoginToken T) ->
  exists k u p user,
    knex this = Some k /\
    username = Some u /\ u <> "" /\ password = Some p /\ p <> "" /\
    find (has_username u) (tbl_users w) = Some user /\
    bcrypt_compare p (users.password user) = true /\
    T = (next_sid w ++ "." ++ next_secret w)%string.
Proof.
  intros H. destruct (knex this) as [k|] eqn:Hk.
  2:{ unfold result, login, require_knex, bind in H. rewrite Hk in H. discriminate. }
  destruct (JS.provided username) as [u|] eqn:Hu.
  2:{ unfold result, login, require_knex, bind in H. rewrite Hk in H.
      cbn [ret] in H. rewrite Hu in H. discriminate. }
  destruct (JS.provided password) as [p|] eqn:Hp.
  2:{ unfold result, login, require_knex, bind in H. rewrite Hk in H.
      cbn [ret] in H. rewrite Hu, Hp in H. discriminate. }
  apply provided_Some in Hu as [-> Hu]. apply provided_Some in Hp as [-> Hp].
  destruct (find (has_username u) (tbl_users w)) as [user|] eqn:Hfind.
  2:{ apply unknown_user_find in Hfind. unfold result in H.
      rewrite (login_fails this k Hk u p w Hu Hp (or_introl Hfind)) in H.
      discriminate. }
  destruct (bcrypt_compare p (users.password user)) eqn:Hcmp.
  2:{ unfold result in H.
      rewrite (login_fails this k Hk u p w Hu Hp
                 (or_intror (ex_intro _ user (conj Hfind Hcmp)))) in H.
      discriminate. }
  destruct (login_succeeds this k Hk u p user w Hu Hp Hfind Hcmp) as [R _].
  rewrite R in H. inversion H; subst.
  exists k, u, p, user. repeat split; auto.
Qed.

(** C3, as the code has it.  Whenever [login] resolves to a token, the
    token is [sid.secret] with exactly one dot, where [sid] is the
    hexadecimal rendering of 8 random bytes (16 digits) and [secret] that of
    the next 30 random bytes (60 digits), both read from the tape of
    [crypto.randomBytes]; the secret is the longer of the two. *)
Theorem C3_token_shape_16_60 (username password : JS.Arg) (w : World) (T : string) :
  result (login this username password) w = Ok (LoginToken T) ->
  T = (next_sid w ++ "." ++ next_secret w)%string /\
  JS.split "." T = [next_sid w; next_secret w] /\
  token_shape 16 60 T = true /\
  String.length (next_sid w) = 16 /\
  String.length (next_secret w) = 60 /\
  String.length (next_sid w) < String.length (next_secret w).
Proof.
  intros H. apply login_token_inv in H as (k & u & p & user & _ & _ & _ & _ & _ & _ & _ & ->).
  rewrite split_next_token, next_token_shape, next_sid_length, next_secret_length.
  repeat split; lia.
Qed.

End TokenShape.

Lemma C3_token_shape_16_60_witness :
  token_shape 16 60 alice_token = true.
Proof.
  apply (C3_token_shape_16_60 (B:=Plain.bcrypt) auth_hashing
           (Some "alice") (Some "S3cret!") alice_world alice_token).
  reflexivity.
Defined.

(** The login of the concrete scenario returns a session id of 16 digits and
    a secret of 60, not of 8 and 64. *)
Lemma C3_counterexample :
  result (login (B:=Plain.bcrypt) auth_hashing (Some "alice") (Some "S3cret!")) alice_world
  = Ok (LoginToken alice_token) /\
  JS.split "." alice_token = [alice_sid; alice_secret] /\
  String.length alice_sid = 16 /\
  String.length alice_secret = 60 /\
  token_shape 8 64 alice_token = false.
Proof. repeat split; reflexivity. Qed.

(** ** Login followed by verification *)

Lemma find_app_fresh {A} (f : A -> bool) (l : list A) (a : A) :
  find f l = None -> f a = true -> find f (l ++ [a]) = Some a.
Proof.
  intros Hl Ha. induction l as [|b l IH]; simpl in *.
  - rewrite Ha. reflexivity.
  - destruct (f b); [discriminate | auto].
Qed.

Lemma next_token_nonempty (w : World) :
  (next_sid w ++ "." ++ next_secret w)%string <> "".
Proof.
  pose proof (next_sid_length w) as Hlen.
  destruct (next_sid w); [discriminate Hlen | discriminate].
Qed.

Section LoginVerify.

Context {B : Bcrypt} {L : BcryptLaws B}.
Variable this : Authentication.
Variable k : Knex.
Hypothesis Hknex : knex this = Some k.

(** The token a login has just inserted verifies, in either mode. *)
Lemma verify_next_session (w w' : World) (owner : string) :
  no_session w (next_sid w) ->
  tbl_sessions w' = tbl_sessions w ++ [next_session this w owner] ->
  result (verifyToken this (Some (next_sid w ++ "." ++ next_secret w)%string)) w'
  = Ok true.
Proof.
  intros Hfresh Hss. unfold result.
  rewrite (verifyToken_run this k Hknex _ (next_sid w) w' (next_token_nonempty w)).
  2:{ rewrite split_next_token. reflexivity. }
  cbv zeta. rewrite Hss, split_next_token.
  apply no_session_find in Hfresh.
  rewrite (find_app_fresh _ _ (next_session this w owner) Hfresh).
  2:{ unfold has_session_id, next_session. cbn [sessions.session_id].
      apply String.eqb_refl. }
  unfold next_session, next_stored, JS.index. cbn [sessions.token nth_error].
  destruct (tokenHashing this).
  - unfold bcrypt.compare, ret. rewrite compare_hash. reflexivity.
  - unfold loose_eq. rewrite String.eqb_refl. reflexivity.
Qed.

(** C1, as the code has it.  Let the identity the store returns for a
    non-empty username hold a hash that [register] computes for a non-empty
    password, and let the session id that [login] is about to draw be
    carried by no session row yet.  Then [login] resolves to a token string, and [verifyToken] on that
    string in the world [login] left resolves to [true], with token hashing
    enabled and with token hashing disabled alike. *)
Theorem C1_login_then_verify (u p : string) (w : World) :
  u <> "" -> p <> "" ->
  registered w u p ->
  no_session w (next_sid w) ->
  exists T,
    result (login this (Some u) (Some p)) w = Ok (LoginToken T) /\
    result (verifyToken this (Some T)) (after (login this (Some u) (Some p)) w)
    = Ok true.
Proof.
  intros Hu Hp (user & salt & Hfind & Hhash) Hfresh.
  assert (Hcmp : bcrypt_compare p (users.password user) = true)
    by (rewrite Hhash; apply compare_hash).
  destruct (login_succeeds this k Hknex u p user w Hu Hp Hfind Hcmp)
    as (Hres & Hss & _ & _).
  eexists. split; [exact Hres|].
  eapply verify_next_session; eauto.
Qed.

End LoginVerify.

(** ** Registration *)

Section Register.

Context {B : Bcrypt}.
Variable this : Authentication.
Variable k : Knex.
Hypothesis Hknex : knex this = Some k.

Lemma register_taken (u p : string) (r : users.row) (w : World) :
  u <> "" -> p <> "" ->
  find (has_username u) (tbl_users w) = Some r ->
  let w' := after (register this (Some u) (Some p)) w in
  result (register this (Some u) (Some p)) w = Ok conflict /\
  tbl_users w' = tbl_users w /\
  tbl_sessions w' = tbl_sessions w /\
  queries w' = queries w ++ [FirstUsersWhereUsername u].
Proof.
  intros Hu Hp Hfind.
  unfold result, after, register, require_knex, bind. rewrite Hknex.
  cbn [ret]. rewrite (provided_str u Hu), (provided_str p Hp).
  unfold uuidv4, bcrypt.hash, userExists, require_knex, on_knex, bind. rewrite Hknex.
  cbn [ret randomBytes fst snd]. rewrite (provided_str u Hu).
  unfold users_first_where_username, record, bind, ret.
  cbn [tbl_users tbl_sessions queries rng]. rewrite Hfind. simpl. auto.
Qed.

Lemma register_fresh (u p : string) (w : World) :
  u <> "" -> p <> "" ->
  find (has_username u) (tbl_users w) = None ->
  let w' := after (register this (Some u) (Some p)) w in
  result (register this (Some u) (Some p)) w = Ok RegSuccess /\
  tbl_users w' = tbl_users w ++ [next_identity w u p] /\
  tbl_sessions w' = tbl_sessions w /\
  queries w' = queries w ++ [FirstUsersWhereUsername u;
                             InsertUsers (next_identity w u p)].
Proof.
  intros Hu Hp Hfind.
  unfold result, after, register, require_knex, bind. rewrite Hknex.
  cbn [ret]. rewrite (provided_str u Hu), (provided_str p Hp).
  unfold uuidv4, bcrypt.hash, userExists, require_knex, on_knex, bind. rewrite Hknex.
  cbn [ret randomBytes fst snd]. rewrite (provided_str u Hu).
  unfold users_first_where_username, record, bind, ret.
  cbn [tbl_users tbl_sessions queries rng]. rewrite Hfind.
  unfold users_insert, record, next_identity, next_uuid, next_password_salt.
  cbn [tbl_users tbl_sessions queries rng tape cursor fst snd].
  rewrite <- app_assoc. auto.
Qed.

End Register.

Lemma identities_positive (w : World) (u : string) :
  0 < identities w u ->
  exists r, find (has_username u) (tbl_users w) = Some r.
Proof.
  unfold identities. rewrite find_filter_head.
  destruct (filter (has_username u) (tbl_users w)) as [|r rest]; simpl.
  - lia.
  - eauto.
Qed.

Lemma identities_fresh (w : World) (u : string) :
  find (has_username u) (tbl_users w) = None -> identities w u = 0.
Proof.
  intros H. unfold identities. rewrite (filter_find_none _ _ H). reflexivity.
Qed.

Section Conflict.

Context {B : Bcrypt}.
Variable this : Authentication.
Variable k : Knex.
Hypothesis Hknex : knex this = Some k.

(** A successful registration leaves exactly one identity row with the
    username, and that row holds a hash of the password. *)
Lemma register_registers (u p : string) (w : World) :
  u <> "" -> p <> "" ->
  result (register this (Some u) (Some p)) w = Ok RegSuccess ->
  let w' := after (register this (Some u) (Some p)) w in
  identities w' u = 1 /\ registered w' u p.
Proof.
  intros Hu Hp Hres.
  destruct (find (has_username u) (tbl_users w)) as [r|] eqn:Hfind.
  - destruct (register_taken this k Hknex u p r w Hu Hp Hfind) as [R _].
    rewrite R in Hres. discriminate.
  - destruct (register_fresh this k Hknex u p w Hu Hp Hfind) as (_ & Hus & _).
    assert (Hrow : has_username u (next_identity w u p) = true)
      by apply String.eqb_refl.
    cbv zeta. split.
    + unfold identities. rewrite Hus, filter_app, (filter_find_none _ _ Hfind).
      cbn [filter app]. rewrite Hrow. reflexivity.
    + exists (next_identity w u p), (next_password_salt w). split.
      * rewrite Hus. apply find_app_fresh; assumption.
      * reflexivity.
Qed.

(** C4. When the store holds the identity row of a username, a further
    [register] with that username (and any non-empty password) resolves to
    the conflict result, sends the existence check as its only query and
    inserts nothing: both tables are as before, so the store still holds
    exactly one identity row for the username. *)
Theorem C4_register_conflict (u p : string) (w : World) :
  u <> "" -> p <> "" ->
  identities w u = 1 ->
  let w' := after (register this (Some u) (Some p)) w in
  result (register this (Some u) (Some p)) w = Ok conflict /\
  tbl_users w' = tbl_users w /\
  tbl_sessions w' = tbl_sessions w /\
  queries w' = queries w ++ [FirstUsersWhereUsername u] /\
  identities w' u = 1.
Proof.
  intros Hu Hp Hone.
  destruct (identities_positive w u) as [r Hfind]; [lia|].
  destruct (register_taken this k Hknex u p r w Hu Hp Hfind) as (R & Hus & Hss & Hq).
  cbv zeta. repeat split; auto.
  unfold identities in *. rewrite Hus. exact Hone.
Qed.

(** X19. Registering the same username twice: when the first call
    succeeds, the second one, with any non-empty password, resolves to the
    conflict result, leaves [users] as the first call left it, and the
    username has exactly one identity row. *)
Lemma register_twice (u p1 p2 : string) (w : World) :
  u <> "" -> p1 <> "" -> p2 <> "" ->
  result (register this (Some u) (Some p1)) w = Ok RegSuccess ->
  let w1 := after (register this (Some u) (Some p1)) w in
  let w2 := after (register this (Some u) (Some p2)) w1 in
  result (register this (Some u) (Some p2)) w1 = Ok conflict /\
  tbl_users w2 = tbl_users w1 /\
  identities w2 u = 1.
Proof.
  intros Hu Hp1 Hp2 Hres w1 w2.
  destruct (register_registers u p1 w Hu Hp1 Hres) as [Hone _].
  destruct (identities_positive w1 u) as [r Hfind]; [fold w1 in Hone; lia|].
  destruct (register_taken this k Hknex u p2 r w1 Hu Hp2 Hfind) as (R & Hus & _).
  repeat split; auto.
  unfold identities. fold w2 in Hus. rewrite Hus. exact Hone.
Qed.

End Conflict.

Section Scenario.

Context {B : Bcrypt} {L : BcryptLaws B}.
Variable this : Authentication.
Variable k : Knex.
Hypothesis Hknex : knex this = Some k.

(** X18. From registration on: when [register] succeeds for a non-empty
    username and password and the next session id is new, a [login] with
    the same pair resolves to a token, and [verifyToken] on that token
    resolves to [true], with token hashing enabled or disabled. *)
Lemma register_login_verify (u p : string) (w : World) :
  u <> "" -> p <> "" ->
  result (register this (Some u) (Some p)) w = Ok RegSuccess ->
  let w1 := after (register this (Some u) (Some p)) w in
  no_session w1 (next_sid w1) ->
  exists T,
    result (login this (Some u) (Some p)) w1 = Ok (LoginToken T) /\
    result (verifyToken this (Some T)) (after (login this (Some u) (Some p)) w1)
    = Ok true.
Proof.
  intros Hu Hp Hreg w1 Hfresh.
  destruct (register_registers this k Hknex u p w Hu Hp Hreg)
    as (_ & user & salt & Hfind & Hhash).
  fold w1 in Hfind.
  assert (Hcmp : bcrypt_compare p (users.password user) = true)
    by (rewrite Hhash; apply compare_hash).
  destruct (login_succeeds this k Hknex u p user w1 Hu Hp Hfind Hcmp)
    as (Hres & Hss & _ & _).
  eexists. split; [exact Hres|].
  eapply verify_next_session; eauto.
Qed.

End Scenario.

Lemma C4_register_conflict_witness :
  identities alice_world "alice" = 1 /\
  result (register (B:=Plain.bcrypt) auth_hashing (Some "alice") (Some "other"))
         alice_world
  = Ok conflict /\
  identities (after (register (B:=Plain.bcrypt) auth_hashing (Some "alice") (Some "other"))
                alice_world) "alice"
  = 1.
Proof.
  split; [reflexivity|].
  pose proof (C4_register_conflict (B:=Plain.bcrypt) auth_hashing Connection eq_refl
                "alice" "other" alice_world) as H.
  split; apply H; solve [discriminate | reflexivity].
Defined.

(** ** The instance to run on satisfies the laws *)

Lemma after_dollar_hex (buf : Buffer.t) (rest : string) :
  Plain.after_dollar (Buffer.toString_hex buf ++ String "$" rest) = Some rest.
Proof.
  induction buf as [|b buf IH]; [reflexivity|].
  cbn [Buffer.toString_hex]. revert IH. generalize (Buffer.toString_hex buf).
  intros s IH. destruct b; cbn; exact IH.
Qed.

Lemma Plain_laws : BcryptLaws Plain.bcrypt.
Proof.
  split.
  - intros data rounds salt. cbn [bcrypt_compare bcrypt_hash Plain.bcrypt].
    unfold Plain.hash.
    change ("$2b$" ++ Buffer.toString_hex salt ++ "$" ++ data)%string
      with (String "$" (String "2" (String "b" (String "$"
              (Buffer.toString_hex salt ++ String "$" data))))).
    unfold Plain.compare. rewrite after_dollar_hex. apply String.eqb_refl.
  - intros data rounds salt. eexists. reflexivity.
Qed.


Lemma C1_login_then_verify_witness :
  (exists T,
      result (login (B:=Plain.bcrypt) auth_hashing (Some "alice") (Some "S3cret!"))
             alice_world
      = Ok (LoginToken T) /\
      result (verifyToken (B:=Plain.bcrypt) auth_hashing (Some T)) session_world
      = Ok true) /\
  (exists T,
      result (login (B:=Plain.bcrypt) auth_plain (Some "alice") (Some "S3cret!"))
             alice_world
      = Ok (LoginToken T) /\
      result (verifyToken (B:=Plain.bcrypt) auth_plain (Some T)) session_world_plain
      = Ok true).
Proof.
  split.
  - apply (C1_login_then_verify (B:=Plain.bcrypt) (L:=Plain_laws) auth_hashing
             Connection eq_refl "alice" "S3cret!" alice_world).
    + discriminate.
    + discriminate.
    + eexists. eexists. split; reflexivity.
    + apply no_session_find. reflexivity.
  - apply (C1_login_then_verify (B:=Plain.bcrypt) (L:=Plain_laws) auth_plain
             Connection eq_refl "alice" "S3cret!" alice_world).
    + discriminate.
    + discriminate.
    + eexists. eexists. split; reflexivity.
    + apply no_session_find. reflexivity.
Defined.

(** [login] does not look whether the id it draws is taken.  In
    [collision_world] the identity of alice is registered and a session row
    already carries the id the tape holds next: [login] resolves to a token,
    and [verifyToken] on that token resolves to [false], because [first()]
    returns the older row; so with token hashing disabled, and so with it
    enabled. *)
Lemma C1_counterexample :
  registered (B:=Plain.bcrypt) collision_world "alice" "S3cret!" /\
  next_sid collision_world = alice_sid /\
  result (login (B:=Plain.bcrypt) auth_plain (Some "alice") (Some "S3cret!"))
         collision_world
  = Ok (LoginToken alice_token) /\
  result (verifyToken (B:=Plain.bcrypt) auth_plain (Some alice_token))
         (after (login (B:=Plain.bcrypt) auth_plain (Some "alice") (Some "S3cret!"))
                collision_world)
  = Ok false /\
  result (login (B:=Plain.bcrypt) auth_hashing (Some "alice") (Some "S3cret!"))
         collision_world
  = Ok (LoginToken alice_token) /\
  result (verifyToken (B:=Plain.bcrypt) auth_hashing (Some alice_token))
         (after (login (B:=Plain.bcrypt) auth_hashing (Some "alice") (Some "S3cret!"))
                collision_world)
  = Ok false.
Proof.
  split.
  - exists alice_row, (next_password_salt empty_world). split; reflexivity.
  - repeat split; reflexivity.
Qed.

(** ** What the store keeps of a secret *)

Section AtRest.

Context {B : Bcrypt}.
Variable this : Authentication.




End AtRest.



(** ** Malformed token strings *)

Lemma split_segments_no_sep (c : ascii) (s : string) :
  Forall (fun seg => JS.occurs c seg = false) (JS.split c s).
Proof.
  induction s as [|a s IH]; simpl.
  - constructor; [reflexivity | constructor].
  - destruct (Ascii.eqb a c) eqn:E.
    + constructor; [reflexivity | exact IH].
    + destruct (JS.split c s) as [|seg segs]; inversion IH; subst;
        constructor; simpl; try rewrite E; auto.
Qed.

Lemma split_first_two (s sid tok : string) (extra : list string) :
  JS.split "." s = sid :: tok :: extra ->
  JS.split "." (sid ++ "." ++ tok) = [sid; tok].
Proof.
  intros H. pose proof (split_segments_no_sep "." s) as F. rewrite H in F.
  inversion F as [|? ? Hsid F']; subst. inversion F' as [|? ? Htok _]; subst.
  apply split_token; assumption.
Qed.

Lemma dotted_nonempty (sid tok : string) : (sid ++ "." ++ tok)%string <> "".
Proof. destruct sid; discriminate. Qed.

Section Malformed.

Context {B : Bcrypt}.
Variable this : Authentication.
Variable k : Knex.
Hypothesis Hknex : knex this = Some k.

(** [verifyToken] reads the first two segments of the string and nothing
    else. *)
Lemma verifyToken_two_segments (s s' : string) (w : World) :
  s <> "" -> s' <> "" ->
  JS.index (JS.split "." s) 0 = JS.index (JS.split "." s') 0 ->
  JS.index (JS.split "." s) 1 = JS.index (JS.split "." s') 1 ->
  verifyToken this (Some s) w = verifyToken this (Some s') w.
Proof.
  intros Hs Hs' H0 H1.
  assert (Hsid : exists sid, JS.index (JS.split "." s) 0 = Some sid).
  { destruct (JS.split "." s) as [|sid rest] eqn:E;
      [exfalso; exact (split_not_nil _ _ E) | exists sid; reflexivity]. }
  destruct Hsid as [sid Hsid].
  rewrite (verifyToken_run this k Hknex s sid w Hs Hsid).
  rewrite Hsid in H0. symmetry in H0.
  rewrite (verifyToken_run this k Hknex s' sid w Hs' H0).
  rewrite H1. reflexivity.
Qed.

(** C2, as the code has it.  For a non-empty string and an initialised
    handle: when the string has no dot, [verifyToken] never resolves to
    [true], and it resolves to [false] when token hashing is disabled or
    when no session row has the whole string as its id; when the string has
    more than two segments, [verifyToken] ignores the segments after the
    second and behaves exactly as on the first two joined by a dot; in
    every case it leaves both tables unchanged. *)
Theorem C2_verify_malformed (s : string) (w : World) :
  s <> "" ->
  (JS.occurs "." s = false ->
   result (verifyToken this (Some s)) w <> Ok true /\
   (tokenHashing this = false \/ no_session w s ->
    result (verifyToken this (Some s)) w = Ok false)) /\
  (forall sid tok extra,
      JS.split "." s = sid :: tok :: extra ->
      verifyToken this (Some s) w
      = verifyToken this (Some (sid ++ "." ++ tok)%string) w) /\
  tbl_sessions (after (verifyToken this (Some s)) w) = tbl_sessions w /\
  tbl_users (after (verifyToken this (Some s)) w) = tbl_users w.
Proof.
  intros Hs. split; [|split; [|split]].
  - intros Hdot.
    assert (Hseg : JS.index (JS.split "." s) 0 = Some s)
      by (rewrite (split_no_sep _ _ Hdot); reflexivity).
    unfold result. rewrite (verifyToken_run this k Hknex s s w Hs Hseg).
    cbv zeta. rewrite (split_no_sep _ _ Hdot). split.
    + destruct (find (has_session_id s) (tbl_sessions w)); [|discriminate].
      destruct (tokenHashing this); discriminate.
    + intros [Hmode | Hmiss].
      * rewrite Hmode.
        destruct (find (has_session_id s) (tbl_sessions w)); reflexivity.
      * apply no_session_find in Hmiss. rewrite Hmiss. reflexivity.
  - intros sid tok extra Hsplit.
    apply verifyToken_two_segments; auto using dotted_nonempty.
    + rewrite (split_first_two _ _ _ _ Hsplit), Hsplit. reflexivity.
    + rewrite (split_first_two _ _ _ _ Hsplit), Hsplit. reflexivity.
  - apply (verifyToken_frame this k Hknex).
  - apply (verifyToken_frame this k Hknex).
Qed.

End Malformed.

Lemma C2_verify_malformed_witness :
  result (verifyToken (B:=Plain.bcrypt) auth_plain (Some alice_sid)) session_world_plain
  = Ok false /\
  verifyToken (B:=Plain.bcrypt) auth_plain (Some (alice_token ++ ".extra")%string)
              session_world_plain
  = verifyToken (B:=Plain.bcrypt) auth_plain (Some alice_token) session_world_plain.
Proof.
  split.
  - apply (C2_verify_malformed (B:=Plain.bcrypt) auth_plain Connection eq_refl
             alice_sid session_world_plain);
      [discriminate | reflexivity | left; reflexivity].
  - destruct (C2_verify_malformed (B:=Plain.bcrypt) auth_plain Connection eq_refl
                (alice_token ++ ".extra")%string session_world_plain)
      as (_ & H & _); [discriminate|].
    apply (H alice_sid alice_secret ["extra"%string]). reflexivity.
Defined.

(** A valid token followed by a third segment has two dots and verifies. *)
Lemma C2_counterexample :
  tbl_sessions session_world_plain
  = [{| sessions.session_id := alice_sid;
        sessions.token := alice_secret;
        sessions.uuid := "abacadae-afb0-41b2-b3b4-b5b6b7b8b9ba" |}] /\
  JS.count "." (alice_token ++ ".extra") = 2 /\
  JS.split "." (alice_token ++ ".extra") = [alice_sid; alice_secret; "extra"%string] /\
  result (verifyToken (B:=Plain.bcrypt) auth_plain (Some (alice_token ++ ".extra")%string))
         session_world_plain
  = Ok true.
Proof. repeat split; reflexivity. Qed.

(** With token hashing enabled, the bare id of a live session makes
    [bcrypt.compare] reject, so [verifyToken] throws instead of resolving to
    [false]. *)
Example verifyToken_bare_sid_throws :
  JS.occurs "." alice_sid = false /\
  result (verifyToken (B:=Plain.bcrypt) auth_hashing (Some alice_sid)) session_world
  = Throw (Error "data and hash arguments required").
Proof. split; reflexivity. Qed.

(** ** The express middleware *)

Section Middleware.

Context {B : Bcrypt}.
Variable this : Authentication.

Lemma getUserIdFromSessionId_run (k : Knex) (sid : string) (w : World) :
  knex this = Some k ->
  sid <> "" ->
  getUserIdFromSessionId this (Some sid) w =
  (Ok (option_map sessions.uuid (find (has_session_id sid) (tbl_sessions w))),
   logged (FirstSessionsWhereId sid) w).
Proof.
  intros Hk Hsid.
  unfold getUserIdFromSessionId, require_knex, on_knex, bind. rewrite Hk.
  cbn [ret]. rewrite (provided_str sid Hsid).
  unfold sessions_first_where_id, record, bind, ret, logged.
  destruct (find (has_session_id sid) (tbl_sessions w)); reflexivity.
Qed.

(** The verdict of [verifyToken] comes with the world in which the lookup
    has been logged. *)
Lemma verifyToken_world (k : Knex) (s sid : string) (w : World) :
  knex this = Some k ->
  s <> "" ->
  JS.index (JS.split "." s) 0 = Some sid ->
  verifyToken this (Some s) w
  = (result (verifyToken this (Some s)) w, logged (FirstSessionsWhereId sid) w).
Proof.
  intros Hk Hs Hsid. unfold result.
  rewrite (verifyToken_run this k Hk s sid w Hs Hsid). cbv zeta.
  destruct (find (has_session_id sid) (tbl_sessions w)); [|reflexivity].
  destruct (tokenHashing this); [|reflexivity].
  unfold bcrypt.compare. destruct (JS.index (JS.split "." s) 1); reflexivity.
Qed.

Lemma verifyToken_true_session (k : Knex) (s sid : string) (w : World) :
  knex this = Some k ->
  s <> "" ->
  JS.index (JS.split "." s) 0 = Some sid ->
  result (verifyToken this (Some s)) w = Ok true ->
  exists srow, find (has_session_id sid) (tbl_sessions w) = Some srow.
Proof.
  intros Hk Hs Hsid. unfold result.
  rewrite (verifyToken_run this k Hk s sid w Hs Hsid). cbv zeta.
  destruct (find (has_session_id sid) (tbl_sessions w)) as [srow|];
    [eauto | discriminate].
Qed.

(** The two ways the middleware ends: the answer 401 with the request as
    it was, or [next] with the context of the session and identity rows the
    store returned. *)
Lemma middleware_outcomes (req : express.Request) (w : World) :
  exists req' reply,
    result (express_middleware this req) w = Ok (req', reply) /\
    ((reply = express.StatusJson 401 "Unauthorized" /\ req' = req) \/
     (reply = express.Next /\
      exists token sid srow urow,
        JS.provided (bearer req) = Some token /\
        result (verifyToken this (Some token)) w = Ok true /\
        JS.index (JS.split "." token) 0 = Some sid /\
        sid <> "" /\
        find (has_session_id sid) (tbl_sessions w) = Some srow /\
        find (has_uuid (Some (sessions.uuid srow))) (tbl_users w) = Some urow /\
        req' = attached req urow srow token)).
Proof.
  unfold result, express_middleware, try_catch.
  destruct (JS.provided (bearer req)) as [token|] eqn:Hb.
  2:{ exists req, unauthorized. split; [reflexivity | left; auto]. }
  destruct (knex this) as [k|] eqn:Hk.
  2:{ unfold bind at 1. unfold verifyToken, require_knex, bind. rewrite Hk.
      exists req, unauthorized. split; [reflexivity | left; auto]. }
  pose proof Hb as Hb'. apply provided_Some in Hb' as [_ Htok].
  assert (Hsid : exists sid, JS.index (JS.split "." token) 0 = Some sid).
  { destruct (JS.split "." token) as [|sid rest] eqn:E;
      [exfalso; exact (split_not_nil _ _ E) | exists sid; reflexivity]. }
  destruct Hsid as [sid Hsid].
  unfold bind at 1. rewrite (verifyToken_world k token sid w Hk Htok Hsid).
  destruct (result (verifyToken this (Some token)) w) as [[|]|e] eqn:Hv.
  2,3: exists req, unauthorized; split; [reflexivity | left; auto].
  destruct (verifyToken_true_session k token sid w Hk Htok Hsid Hv) as [srow Hs].
  cbn [negb]. rewrite Hsid. unfold bind at 1.
  destruct (String.eqb_spec sid "") as [->|Hne].
  { exists req, unauthorized. split; [|left; auto].
    unfold getUserIdFromSessionId, require_knex, bind. rewrite Hk. reflexivity. }
  rewrite (getUserIdFromSessionId_run k sid _ Hk Hne).
  change (tbl_sessions (logged (FirstSessionsWhereId sid) w)) with (tbl_sessions w).
  rewrite Hs. cbn [option_map]. unfold bind, on_knex. rewrite Hk.
  unfold users_select_where_uuid, record, bind, ret.
  cbn [tbl_users tbl_sessions logged fst snd].
  destruct (filter (has_uuid (Some (sessions.uuid srow))) (tbl_users w))
    as [|urow rest] eqn:Hf.
  { exists req, unauthorized. split; [reflexivity | left; auto]. }
  exists (attached req urow srow token), express.Next.
  split; [reflexivity|]. right. split; [reflexivity|].
  exists token, sid, srow, urow. repeat split; auto.
  rewrite find_filter_head, Hf. reflexivity.
Qed.

End Middleware.

(** The middleware on the session of the concrete scenario, and on a
    request without credential. *)
Example middleware_attaches_alice :
  result (express_middleware (B:=Plain.bcrypt) auth_hashing
            {| express.authorization := Some ("Bearer " ++ alice_token)%string;
               express.eauth := None |})
         session_world
  = Ok ({| express.authorization := Some ("Bearer " ++ alice_token)%string;
           express.eauth :=
             Some {| eauth.user :=
                       {| eauth.username := "alice";
                          eauth.id := Some "abacadae-afb0-41b2-b3b4-b5b6b7b8b9ba"%string;
                          eauth.token := alice_token |} |} |},
        express.Next).
Proof. reflexivity. Qed.

Example middleware_rejects_bare_scheme :
  result (express_middleware (B:=Plain.bcrypt) auth_hashing
            {| express.authorization := Some "Bearer"%string;
               express.eauth := None |})
         session_world
  = Ok ({| express.authorization := Some "Bearer"%string; express.eauth := None |},
        express.StatusJson 401 "Unauthorized").
Proof. reflexivity. Qed.

(** A throwing verification ends in the same answer: the bare session id
    makes [bcrypt.compare] reject, and the [catch] block answers 401. *)
Example middleware_catches :
  result (express_middleware (B:=Plain.bcrypt) auth_hashing
            {| express.authorization := Some ("Bearer " ++ alice_sid)%string;
               express.eauth := None |})
         session_world
  = Ok ({| express.authorization := Some ("Bearer " ++ alice_sid)%string;
           express.eauth := None |},
        express.StatusJson 401 "Unauthorized").
Proof. reflexivity. Qed.

(** * Further properties of the class *)

(** ** Methods that only read *)

Lemma same_store_refl (w : World) : same_store w w.
Proof. repeat split. Qed.

Lemma same_store_trans (w1 w2 w3 : World) :
  same_store w1 w2 -> same_store w2 w3 -> same_store w1 w3.
Proof.
  intros (U1 & S1 & R1) (U2 & S2 & R2). repeat split; congruence.
Qed.

Lemma read_only_ret {A} (a : A) : read_only (ret a).
Proof. intros w. apply same_store_refl. Qed.

Lemma read_only_throw {A} (e : Exn) : read_only (@throw A e).
Proof. intros w. apply same_store_refl. Qed.

Lemma read_only_bind {A C} (m : M A) (f : A -> M C) :
  read_only m -> (forall a, read_only (f a)) -> read_only (bind m f).
Proof.
  intros Hm Hf w. specialize (Hm w). unfold after, bind in *.
  destruct (m w) as [[a|e] w1]; simpl in *.
  - eapply same_store_trans; [exact Hm | apply (Hf a w1)].
  - exact Hm.
Qed.

Lemma read_only_try_catch {A} (m : M A) (h : Exn -> M A) :
  read_only m -> (forall e, read_only (h e)) -> read_only (try_catch m h).
Proof.
  intros Hm Hh w. specialize (Hm w). unfold after, try_catch in *.
  destruct (m w) as [[a|e] w1]; simpl in *.
  - exact Hm.
  - eapply same_store_trans; [exact Hm | apply (Hh e w1)].
Qed.

Lemma read_only_users_first (u : string) :
  read_only (users_first_where_username u).
Proof. intros w. repeat split. Qed.

Lemma read_only_users_select_uuid (v : option string) :
  read_only (users_select_where_uuid v).
Proof. intros w. repeat split. Qed.

Lemma read_only_sessions_first (sid : option string) :
  read_only (sessions_first_where_id sid).
Proof. destruct sid; intros w; repeat split. Qed.

Section ReadOnly.

Context {B : Bcrypt}.
Variable this : Authentication.

Lemma read_only_require_knex : read_only (require_knex this).
Proof.
  unfold require_knex. destruct (knex this);
    [apply read_only_ret | apply read_only_throw].
Qed.

Lemma read_only_on_knex {A} (q : M A) : read_only q -> read_only (on_knex this q).
Proof.
  intros Hq. unfold on_knex. destruct (knex this); [exact Hq | apply read_only_throw].
Qed.

Lemma read_only_compare (data : option string) (h : string) :
  read_only (bcrypt.compare data h).
Proof.
  unfold bcrypt.compare. destruct data; [apply read_only_ret | apply read_only_throw].
Qed.

Lemma read_only_userExists (username : JS.Arg) : read_only (userExists this username).
Proof.
  unfold userExists. apply read_only_bind; [apply read_only_require_knex|].
  intros _. destruct (JS.provided username); [|apply read_only_throw].
  apply read_only_bind.
  - apply read_only_on_knex, read_only_users_first.
  - intros r. apply read_only_ret.
Qed.

Lemma read_only_verifyToken (tokenString : JS.Arg) :
  read_only (verifyToken this tokenString).
Proof.
  unfold verifyToken. apply read_only_bind; [apply read_only_require_knex|].
  intros _. destruct (JS.provided tokenString); [|apply read_only_throw].
  cbv zeta. apply read_only_bind.
  - apply read_only_on_knex, read_only_sessions_first.
  - intros [r|]; [|apply read_only_ret].
    destruct (tokenHashing this); [apply read_only_compare | apply read_only_ret].
Qed.

Lemma read_only_getUserIdFromSessionId (sid : JS.Arg) :
  read_only (getUserIdFromSessionId this sid).
Proof.
  unfold getUserIdFromSessionId. apply read_only_bind; [apply read_only_require_knex|].
  intros _. destruct (JS.provided sid); [|apply read_only_throw].
  apply read_only_bind.
  - apply read_only_on_knex, read_only_sessions_first.
  - intros [r|]; apply read_only_ret.
Qed.

(** X1. [verifyToken], [userExists], [getUserIdFromSessionId] and the
    express middleware never write: for every argument or request, every
    instance and every world, also when they throw or answer 401, the
    [users] table, the [sessions] table and the random tape are afterwards
    what they were before. *)
Theorem readers_never_write (a : JS.Arg) (req : express.Request) :
  read_only (verifyToken this a) /\
  read_only (userExists this a) /\
  read_only (getUserIdFromSessionId this a) /\
  read_only (express_middleware this req).
Proof.
  split; [apply read_only_verifyToken|].
  split; [apply read_only_userExists|].
  split; [apply read_only_getUserIdFromSessionId|].
  unfold express_middleware. apply read_only_try_catch.
  2:{ intros e. apply read_only_ret. }
  cbv zeta. destruct (JS.provided (bearer req)) as [token|]; [|apply read_only_ret].
  apply read_only_bind; [apply read_only_verifyToken|].
  intros valid. destruct (negb valid); [apply read_only_ret|].
  apply read_only_bind; [apply read_only_getUserIdFromSessionId|].
  intros confirmedUuid. apply read_only_bind.
  - apply read_only_on_knex, read_only_users_select_uuid.
  - intros [|user rest]; apply read_only_ret.
Qed.

End ReadOnly.

(** ** A missing handle, a missing argument *)

Section Guards.

Context {B : Bcrypt}.
Variable this : Authentication.

(** X2. On an instance whose [knex] handle is missing, each of the six
    methods throws the error "Knex hasn't been initiated in the AuthService
    class." for every argument, and the middleware answers 401 to every
    request; in all seven cases the world is left exactly as it was. *)
Theorem without_knex_nothing_runs (a b : JS.Arg) (req : express.Request) (w : World) :
  knex this = None ->
  register this a b w = (Throw knex_missing, w) /\
  login this a b w = (Throw knex_missing, w) /\
  verifyToken this a w = (Throw knex_missing, w) /\
  logout this a w = (Throw knex_missing, w) /\
  userExists this a w = (Throw knex_missing, w) /\
  getUserIdFromSessionId this a w = (Throw knex_missing, w) /\
  express_middleware this req w = (Ok (req, express.StatusJson 401 "Unauthorized"), w).
Proof.
  intros Hk.
  assert (Hv : forall t, verifyToken this t w = (Throw knex_missing, w)).
  { intros t. unfold verifyToken, require_knex, bind. rewrite Hk. reflexivity. }
  repeat split.
  - unfold register, require_knex, bind. rewrite Hk. reflexivity.
  - unfold login, require_knex, bind. rewrite Hk. reflexivity.
  - apply Hv.
  - unfold logout, require_knex, bind. rewrite Hk. reflexivity.
  - unfold userExists, require_knex, bind. rewrite Hk. reflexivity.
  - unfold getUserIdFromSessionId, require_knex, bind. rewrite Hk. reflexivity.
  - unfold express_middleware, try_catch. cbv zeta.
    destruct (JS.provided (bearer req)) as [token|]; [|reflexivity].
    unfold bind at 1. rewrite Hv. reflexivity.
Qed.

(** X3. With an initialised handle, [userExists] without a username and
    [getUserIdFromSessionId] without a session id ([undefined] or the empty
    string) throw their own errors, "Username must be provided" and
    "Session ID must be provided", and leave the world exactly as it was: no
    query reaches the store. *)
Theorem lookups_reject_missing_argument (k : Knex) (a : JS.Arg) (w : World) :
  knex this = Some k ->
  JS.truthy a = false ->
  userExists this a w = (Throw (Error "Username must be provided"), w) /\
  getUserIdFromSessionId this a w = (Throw (Error "Session ID must be provided"), w).
Proof.
  intros Hk H. apply provided_None in H. split.
  - unfold userExists, require_knex, bind. rewrite Hk. cbn [ret]. rewrite H. reflexivity.
  - unfold getUserIdFromSessionId, require_knex, bind. rewrite Hk. cbn [ret].
    rewrite H. reflexivity.
Qed.

Lemma userExists_run (k : Knex) (u : string) (w : World) :
  knex this = Some k ->
  u <> "" ->
  userExists this (Some u) w =
  (Ok (match find (has_username u) (tbl_users w) with
       | Some _ => true
       | None => false
       end),
   logged (FirstUsersWhereUsername u) w).
Proof.
  intros Hk Hu. unfold userExists, require_knex, on_knex, bind. rewrite Hk.
  cbn [ret]. rewrite (provided_str u Hu). reflexivity.
Qed.

(** X4. With an initialised handle and a non-empty username, [userExists]
    answers for the table as it is: it resolves to [true] exactly when some
    identity row carries the username and to [false] exactly when none
    does, and the one query it sends is the lookup by username. *)
Theorem userExists_reflects_table (k : Knex) (u : string) (w : World) :
  knex this = Some k ->
  u <> "" ->
  (result (userExists this (Some u)) w = Ok true <->
   exists r, In r (tbl_users w) /\ users.username r = u) /\
  (result (userExists this (Some u)) w = Ok false <-> unknown_user w u) /\
  queries (after (userExists this (Some u)) w)
  = queries w ++ [FirstUsersWhereUsername u].
Proof.
  intros Hk Hu. unfold result, after. rewrite (userExists_run k u w Hk Hu).
  cbn [fst snd logged queries]. split; [|split; [|reflexivity]].
  - destruct (find (has_username u) (tbl_users w)) as [r|] eqn:Hf; split.
    + intros _. apply find_some in Hf as [Hin Hr]. exists r. split; [exact Hin|].
      now apply String.eqb_eq.
    + reflexivity.
    + discriminate.
    + intros (r & Hin & Hr). exfalso.
      apply unknown_user_find in Hf. exact (Hf r Hin Hr).
  - rewrite unknown_user_find.
    destruct (find (has_username u) (tbl_users w)); split; congruence.
Qed.

End Guards.

Lemma without_knex_nothing_runs_witness :
  login (B:=Plain.bcrypt) auth_no_knex (Some "alice") (Some "S3cret!") alice_world
  = (Throw knex_missing, alice_world) /\
  logout auth_no_knex (Some alice_sid) session_world
  = (Throw knex_missing, session_world).
Proof.
  split.
  - apply (without_knex_nothing_runs (B:=Plain.bcrypt) auth_no_knex
             (Some "alice") (Some "S3cret!")
             {| express.authorization := None; express.eauth := None |}
             alice_world eq_refl).
  - apply (without_knex_nothing_runs (B:=Plain.bcrypt) auth_no_knex
             (Some alice_sid) None
             {| express.authorization := None; express.eauth := None |}
             session_world eq_refl).
Defined.

Lemma lookups_reject_missing_argument_witness :
  userExists auth_hashing None alice_world
  = (Throw (Error "Username must be provided"), alice_world) /\
  getUserIdFromSessionId auth_hashing (Some "") alice_world
  = (Throw (Error "Session ID must be provided"), alice_world).
Proof.
  split.
  - apply (lookups_reject_missing_argument auth_hashing Connection None alice_world);
      reflexivity.
  - apply (lookups_reject_missing_argument auth_hashing Connection (Some "")
             alice_world); reflexivity.
Defined.

Lemma userExists_reflects_table_witness :
  result (userExists auth_hashing (Some "alice")) alice_world = Ok true /\
  result (userExists auth_hashing (Some "nobody")) alice_world = Ok false.
Proof.
  split.
  - apply (userExists_reflects_table auth_hashing Connection "alice" alice_world);
      [reflexivity | discriminate |].
    eexists. split; [left; reflexivity | reflexivity].
  - apply (userExists_reflects_table auth_hashing Connection "nobody" alice_world);
      [reflexivity | discriminate |].
    apply unknown_user_find. reflexivity.
Defined.

(** ** What the writing methods touch *)

Lemma NoDup_snoc {A} (l : list A) (a : A) :
  NoDup l -> ~ In a l -> NoDup (l ++ [a]).
Proof.
  induction l as [|b l IH]; simpl; intros Hnd Hin.
  - constructor; [intros [] | constructor].
  - inversion Hnd as [|? ? Hb Hl]; subst. constructor.
    + rewrite in_app_iff. intros [H | [H | []]]; [contradiction | subst; tauto].
    + apply IH; tauto.
Qed.

Section Writers.

Context {B : Bcrypt}.
Variable this : Authentication.

(** [register] leaves [sessions] alone, and [users] either alone or longer
    by the one row of a username that was free. *)
Lemma register_cases (a b : JS.Arg) (w : World) :
  tbl_sessions (after (register this a b) w) = tbl_sessions w /\
  (tbl_users (after (register this a b) w) = tbl_users w \/
   exists u p,
     a = Some u /\ b = Some p /\
     find (has_username u) (tbl_users w) = None /\
     tbl_users (after (register this a b) w) = tbl_users w ++ [next_identity w u p]).
Proof.
  destruct (knex this) as [k|] eqn:Hk.
  2:{ unfold after, register, require_knex, bind. rewrite Hk. simpl. auto. }
  destruct (JS.provided a) as [u|] eqn:Ha.
  2:{ apply provided_None in Ha.
      destruct (register_rejects this a b w Ha) as [(e & _ & He) _].
      unfold after. rewrite He. simpl. auto. }
  destruct (JS.provided b) as [p|] eqn:Hb.
  2:{ apply provided_None in Hb.
      destruct (register_rejects this b a w Hb) as [_ (e & _ & He)].
      unfold after. rewrite He. simpl. auto. }
  apply provided_Some in Ha as [-> Hu]. apply provided_Some in Hb as [-> Hp].
  destruct (find (has_username u) (tbl_users w)) as [r|] eqn:Hfind.
  - destruct (register_taken this k Hk u p r w Hu Hp Hfind) as (_ & Hus & Hss & _).
    auto.
  - destruct (register_fresh this k Hk u p w Hu Hp Hfind) as (_ & Hus & Hss & _).
    split; [exact Hss|]. right. exists u, p. auto.
Qed.

(** [login] leaves [users] alone, and [sessions] either alone or longer by
    the one row of the session it opened. *)
Lemma login_cases (a b : JS.Arg) (w : World) :
  tbl_users (after (login this a b) w) = tbl_users w /\
  (tbl_sessions (after (login this a b) w) = tbl_sessions w \/
   exists owner,
     tbl_sessions (after (login this a b) w)
     = tbl_sessions w ++ [next_session this w owner]).
Proof.
  destruct (knex this) as [k|] eqn:Hk.
  2:{ unfold after, login, require_knex, bind. rewrite Hk. simpl. auto. }
  destruct (JS.provided a) as [u|] eqn:Ha.
  2:{ apply provided_None in Ha.
      destruct (login_rejects this a b w Ha) as [(e & _ & He) _].
      unfold after. rewrite He. simpl. auto. }
  destruct (JS.provided b) as [p|] eqn:Hb.
  2:{ apply provided_None in Hb.
      destruct (login_rejects this b a w Hb) as [_ (e & _ & He)].
      unfold after. rewrite He. simpl. auto. }
  apply provided_Some in Ha as [-> Hu]. apply provided_Some in Hb as [-> Hp].
  destruct (find (has_username u) (tbl_users w)) as [user|] eqn:Hfind.
  2:{ apply unknown_user_find in Hfind. unfold after.
      rewrite (login_fails this k Hk u p w Hu Hp (or_introl Hfind)). simpl. auto. }
  destruct (bcrypt_compare p (users.password user)) eqn:Hcmp.
  2:{ unfold after.
      rewrite (login_fails this k Hk u p w Hu Hp
                 (or_intror (ex_intro _ user (conj Hfind Hcmp)))).
      simpl. auto. }
  destruct (login_succeeds this k Hk u p user w Hu Hp Hfind Hcmp) as (_ & Hss & Hus & _).
  split; [exact Hus|]. right. exists (users.uuid user). exact Hss.
Qed.

Lemma logout_cases (a : JS.Arg) (w : World) :
  after (logout this a) w = w \/
  exists sid,
    a = Some sid /\
    tbl_users (after (logout this a) w) = tbl_users w /\
    rng (after (logout this a) w) = rng w /\
    tbl_sessions (after (logout this a) w)
    = filter (fun r => negb (has_session_id sid r)) (tbl_sessions w).
Proof.
  destruct (knex this) as [k|] eqn:Hk.
  2:{ left. unfold after, logout, require_knex, bind. rewrite Hk. reflexivity. }
  destruct (JS.provided a) as [sid|] eqn:Ha.
  2:{ left. apply provided_None in Ha.
      destruct (logout_rejects this a w Ha) as (e & _ & He).
      unfold after. rewrite He. reflexivity. }
  apply provided_Some in Ha as [-> Hsid]. right. exists sid.
  unfold after. rewrite (logout_run this k Hk sid w Hsid). simpl. auto.
Qed.

(** X5. For every argument, instance and world, also when the call fails:
    [login] never changes the [users] table and at most appends one row to
    [sessions]; [register] never changes the [sessions] table and at most
    appends one row to [users]; [logout] never changes [users], draws no
    random byte, adds no session row and removes no session row with another
    id than its argument. *)
Theorem writers_touch_only_their_table (a b : JS.Arg) (w : World) :
  (tbl_users (after (login this a b) w) = tbl_users w /\
   exists ext, tbl_sessions (after (login this a b) w) = tbl_sessions w ++ ext /\
               List.length ext <= 1) /\
  (tbl_sessions (after (register this a b) w) = tbl_sessions w /\
   exists ext, tbl_users (after (register this a b) w) = tbl_users w ++ ext /\
               List.length ext <= 1) /\
  (tbl_users (after (logout this a) w) = tbl_users w /\
   rng (after (logout this a) w) = rng w /\
   (forall r, In r (tbl_sessions (after (logout this a) w)) ->
              In r (tbl_sessions w)) /\
   (forall r, In r (tbl_sessions w) ->
              a <> Some (sessions.session_id r) ->
              In r (tbl_sessions (after (logout this a) w)))).
Proof.
  split; [|split].
  - destruct (login_cases a b w) as [Hus [Hss | [owner Hss]]].
    + split; [exact Hus|]. exists []. rewrite app_nil_r. auto.
    + split; [exact Hus|]. eexists. split; [exact Hss | simpl; lia].
  - destruct (register_cases a b w) as [Hss [Hus | (u & p & _ & _ & _ & Hus)]].
    + split; [exact Hss|]. exists []. rewrite app_nil_r. auto.
    + split; [exact Hss|]. eexists. split; [exact Hus | simpl; lia].
  - destruct (logout_cases a w) as [-> | (sid & -> & Hus & Hrng & Hss)].
    + repeat split; auto.
    + split; [exact Hus|]. split; [exact Hrng|]. rewrite Hss. split.
      * intros r Hin. apply filter_In in Hin. tauto.
      * intros r Hin Hne. apply filter_In. split; [exact Hin|].
        unfold has_session_id. apply negb_true_iff, String.eqb_neq. congruence.
Qed.

(** X6. [register] keeps usernames unique: when no two identity rows share
    a username before a call of [register], with whatever arguments and
    whatever its outcome, none do after it. *)
Theorem register_keeps_usernames_unique (a b : JS.Arg) (w : World) :
  NoDup (usernames w) ->
  NoDup (usernames (after (register this a b) w)).
Proof.
  intros Hnd. unfold usernames in *.
  destruct (register_cases a b w) as [_ [-> | (u & p & _ & _ & Hfind & ->)]];
    [exact Hnd|].
  rewrite map_app. cbn [map next_identity users.username].
  apply NoDup_snoc; [exact Hnd|].
  intros Hin. apply in_map_iff in Hin as (r & Hr & Hin).
  apply unknown_user_find in Hfind. exact (Hfind r Hin Hr).
Qed.

End Writers.

Lemma register_keeps_usernames_unique_witness :
  NoDup (usernames
           (after (register (B:=Plain.bcrypt) auth_hashing (Some "bob") (Some "hunter2"))
                  alice_world)).
Proof.
  apply (register_keeps_usernames_unique (B:=Plain.bcrypt) auth_hashing
           (Some "bob") (Some "hunter2") alice_world).
  repeat constructor. intros [].
Defined.

(** ** When a token is issued, when a token is accepted *)

Lemma find_app_some {A} (f : A -> bool) (l ext : list A) (a : A) :
  find f l = Some a -> find f (l ++ ext) = Some a.
Proof.
  induction l as [|b l IH]; simpl; [discriminate|].
  destruct (f b); auto.
Qed.

Lemma find_filter_other (sid sid' : string) (l : list sessions.row) :
  sid' <> sid ->
  find (has_session_id sid') (filter (fun r => negb (has_session_id sid r)) l)
  = find (has_session_id sid') l.
Proof.
  intros Hne. induction l as [|r l IH]; simpl; [reflexivity|].
  destruct (has_session_id sid r) eqn:E1; destruct (has_session_id sid' r) eqn:E2;
    simpl; try rewrite E2; auto.
  unfold has_session_id in E1, E2.
  apply String.eqb_eq in E1. apply String.eqb_eq in E2. congruence.
Qed.

Section Issued.

Context {B : Bcrypt}.
Variable this : Authentication.

(** X7. [login] resolves to a token string exactly when the handle is
    initialised, both arguments are non-empty strings, the store returns an
    identity row for the username and [bcrypt.compare] accepts the password
    against the hash of that row; the token is then the session id and the
    secret read from the random tape, joined by a dot. *)
Theorem login_issues_token_iff (username password : JS.Arg) (w : World) (T : string) :
  result (login this username password) w = Ok (LoginToken T) <->
  exists k u p user,
    knex this = Some k /\
    username = Some u /\ u <> "" /\ password = Some p /\ p <> "" /\
    find (has_username u) (tbl_users w) = Some user /\
    bcrypt_compare p (users.password user) = true /\
    T = (next_sid w ++ "." ++ next_secret w)%string.
Proof.
  split.
  - apply login_token_inv.
  - intros (k & u & p & user & Hk & -> & Hu & -> & Hp & Hfind & Hcmp & ->).
    apply (login_succeeds this k Hk u p user w Hu Hp Hfind Hcmp).
Qed.

(** X8. With an initialised handle and non-empty arguments, [register]
    resolves to success exactly when no identity row carries the username,
    and to the conflict result exactly when one does; it has no third
    outcome. *)
Theorem register_outcome (k : Knex) (u p : string) (w : World) :
  knex this = Some k ->
  u <> "" -> p <> "" ->
  (result (register this (Some u) (Some p)) w = Ok RegSuccess <-> unknown_user w u) /\
  (result (register this (Some u) (Some p)) w = Ok conflict <->
   exists r, In r (tbl_users w) /\ users.username r = u) /\
  (result (register this (Some u) (Some p)) w = Ok RegSuccess \/
   result (register this (Some u) (Some p)) w = Ok conflict).
Proof.
  intros Hk Hu Hp.
  destruct (find (has_username u) (tbl_users w)) as [r|] eqn:Hfind.
  - destruct (register_taken this k Hk u p r w Hu Hp Hfind) as [R _]. rewrite R.
    pose proof (find_some _ _ Hfind) as [Hin Hr]. apply String.eqb_eq in Hr.
    split; [|split; [|right; reflexivity]].
    + split; [discriminate|]. intros Hunk. exfalso. exact (Hunk r Hin Hr).
    + split; [eauto | reflexivity].
  - destruct (register_fresh this k Hk u p w Hu Hp Hfind) as [R _]. rewrite R.
    apply unknown_user_find in Hfind.
    split; [|split; [|left; reflexivity]].
    + split; [auto | reflexivity].
    + split; [discriminate|]. intros (r & Hin & Hr). exfalso. exact (Hfind r Hin Hr).
Qed.

(** X9. With an initialised handle and a non-empty string, [verifyToken]
    resolves to [true] exactly when the string has a second segment, the
    store returns a session row for its first segment, and the second
    segment matches the [token] column of that row: by [bcrypt.compare] when
    token hashing is enabled, by equality when it is disabled. *)
Theorem verifyToken_accepts_iff (k : Knex) (s : string) (w : World) :
  knex this = Some k ->
  s <> "" ->
  (result (verifyToken this (Some s)) w = Ok true <->
   exists sid tok row,
     JS.index (JS.split "." s) 0 = Some sid /\
     JS.index (JS.split "." s) 1 = Some tok /\
     find (has_session_id sid) (tbl_sessions w) = Some row /\
     if tokenHashing this
     then bcrypt_compare tok (sessions.token row) = true
     else tok = sessions.token row).
Proof.
  intros Hk Hs.
  assert (Hsid : exists sid, JS.index (JS.split "." s) 0 = Some sid).
  { destruct (JS.split "." s) as [|sid rest] eqn:E;
      [exfalso; exact (split_not_nil _ _ E) | exists sid; reflexivity]. }
  destruct Hsid as [sid Hsid]. unfold result.
  rewrite (verifyToken_run this k Hk s sid w Hs Hsid). cbv zeta.
  split.
  - destruct (find (has_session_id sid) (tbl_sessions w)) as [row|] eqn:Hf;
      [|discriminate].
    destruct (JS.index (JS.split "." s) 1) as [tok|] eqn:Ht.
    + intros H. exists sid, tok, row. repeat split; auto.
      destruct (tokenHashing this); simpl in H.
      * congruence.
      * apply String.eqb_eq. congruence.
    + destruct (tokenHashing this); discriminate.
  - intros (sid' & tok & row & H0 & H1 & Hf & Hm).
    assert (sid' = sid) by congruence. subst sid'.
    rewrite Hf, H1. destruct (tokenHashing this); simpl.
    + rewrite Hm. reflexivity.
    + subst tok. rewrite String.eqb_refl. reflexivity.
Qed.

(** X10. With token hashing disabled, a token whose secret segment was
    altered is refused: when the store returns a session row for a dot-free
    id, [verifyToken] resolves to [false] on the id followed by a dot and by
    any dot-free string other than the [token] column of that row. *)
Theorem verifyToken_refuses_altered_secret
        (k : Knex) (sid secret : string) (row : sessions.row) (w : World) :
  knex this = Some k ->
  tokenHashing this = false ->
  JS.occurs "." sid = false ->
  JS.occurs "." secret = false ->
  find (has_session_id sid) (tbl_sessions w) = Some row ->
  secret <> sessions.token row ->
  result (verifyToken this (Some (sid ++ "." ++ secret)%string)) w = Ok false.
Proof.
  intros Hk Hmode Hsid Hsecret Hf Hne. unfold result.
  rewrite (verifyToken_run this k Hk _ sid w (dotted_nonempty sid secret))
    by (rewrite (split_token _ _ Hsid Hsecret); reflexivity).
  cbv zeta. rewrite Hf, Hmode, (split_token _ _ Hsid Hsecret).
  unfold JS.index, loose_eq. cbn [nth_error fst].
  apply String.eqb_neq in Hne. rewrite Hne. reflexivity.
Qed.

End Issued.

Lemma register_outcome_witness :
  result (register (B:=Plain.bcrypt) auth_hashing (Some "bob") (Some "hunter2")) alice_world
  = Ok RegSuccess.
Proof.
  apply (register_outcome (B:=Plain.bcrypt) auth_hashing Connection "bob" "hunter2"
           alice_world); [reflexivity | discriminate | discriminate |].
  apply unknown_user_find. reflexivity.
Defined.

Lemma verifyToken_accepts_iff_witness :
  result (verifyToken (B:=Plain.bcrypt) auth_plain (Some alice_token)) session_world_plain
  = Ok true.
Proof.
  apply (verifyToken_accepts_iff (B:=Plain.bcrypt) auth_plain Connection alice_token
           session_world_plain); [reflexivity | discriminate |].
  eexists. eexists. eexists. repeat split; reflexivity.
Defined.

Lemma verifyToken_refuses_altered_secret_witness :
  result (verifyToken (B:=Plain.bcrypt) auth_plain
            (Some (alice_sid ++ "." ++ "c3c4")%string))
         session_world_plain
  = Ok false.
Proof.
  eapply (verifyToken_refuses_altered_secret (B:=Plain.bcrypt) auth_plain Connection
            alice_sid "c3c4"); try reflexivity.
  discriminate.
Defined.

(** ** Sessions side by side *)

Section SideBySide.

Context {B : Bcrypt}.
Variable this : Authentication.
Variable k : Knex.
Hypothesis Hknex : knex this = Some k.

(** What [verifyToken] resolves to depends on the world only through the
    row the store returns for the first segment. *)
Lemma verifyToken_result_find (s sid : string) (w1 w2 : World) :
  s <> "" ->
  JS.index (JS.split "." s) 0 = Some sid ->
  find (has_session_id sid) (tbl_sessions w1)
  = find (has_session_id sid) (tbl_sessions w2) ->
  result (verifyToken this (Some s)) w1 = result (verifyToken this (Some s)) w2.
Proof.
  intros Hs Hsid Hf. unfold result.
  rewrite (verifyToken_run this k Hknex s sid w1 Hs Hsid).
  rewrite (verifyToken_run this k Hknex s sid w2 Hs Hsid).
  cbv zeta. rewrite Hf.
  destruct (find (has_session_id sid) (tbl_sessions w2)); [|reflexivity].
  destruct (tokenHashing this); [|reflexivity].
  unfold bcrypt.compare. destruct (JS.index (JS.split "." s) 1); reflexivity.
Qed.

Lemma getUserIdFromSessionId_result (sid : string) (w : World) :
  sid <> "" ->
  result (getUserIdFromSessionId this (Some sid)) w
  = Ok (option_map sessions.uuid (find (has_session_id sid) (tbl_sessions w))).
Proof.
  intros Hsid. unfold result.
  rewrite (getUserIdFromSessionId_run this k sid w Hknex Hsid). reflexivity.
Qed.

(** X11. [logout] ends one session and no other: for a non-empty id and a
    token string whose first segment is a different id, [verifyToken]
    resolves after the logout to what it resolved to before it, and so does
    [getUserIdFromSessionId] on that different id. *)
Theorem logout_spares_other_sessions (sid sid' s : string) (w : World) :
  sid <> "" -> sid' <> "" ->
  sid' <> sid ->
  JS.index (JS.split "." s) 0 = Some sid' ->
  let w' := after (logout this (Some sid)) w in
  result (verifyToken this (Some s)) w' = result (verifyToken this (Some s)) w /\
  result (getUserIdFromSessionId this (Some sid')) w'
  = result (getUserIdFromSessionId this (Some sid')) w.
Proof.
  intros Hsid Hsid' Hne Hseg w'.
  assert (Hs : s <> "") by (eapply split_head_nonempty; eauto).
  assert (Hf : find (has_session_id sid') (tbl_sessions w')
               = find (has_session_id sid') (tbl_sessions w)).
  { unfold w', after. rewrite (logout_run this k Hknex sid w Hsid).
    cbn [snd tbl_sessions]. apply find_filter_other. exact Hne. }
  split.
  - apply (verifyToken_result_find s sid' w' w Hs Hseg Hf).
  - rewrite !getUserIdFromSessionId_result by exact Hsid'. rewrite Hf. reflexivity.
Qed.

(** X12. A session that exists is not disturbed by later logins or
    registrations: when the store returns a row for the first segment of a
    token string, [verifyToken] on that string resolves to the same value
    after any call of [login] and after any call of [register], successful
    or not, as before it. *)
Theorem existing_session_survives (a b : JS.Arg) (s sid : string)
        (row : sessions.row) (w : World) :
  JS.index (JS.split "." s) 0 = Some sid ->
  s <> "" ->
  find (has_session_id sid) (tbl_sessions w) = Some row ->
  result (verifyToken this (Some s)) (after (login this a b) w)
  = result (verifyToken this (Some s)) w /\
  result (verifyToken this (Some s)) (after (register this a b) w)
  = result (verifyToken this (Some s)) w.
Proof.
  intros Hseg Hs Hf. split; apply (verifyToken_result_find s sid _ w Hs Hseg).
  - destruct (login_cases this a b w) as [_ [-> | [owner ->]]]; [reflexivity|].
    rewrite Hf. apply find_app_some. exact Hf.
  - destruct (register_cases this a b w) as [-> _]. reflexivity.
Qed.

(** X13. The session a login opens belongs to the identity that logged in,
    until it is logged out: when [login] finds the identity row and the
    password matches, and the id it draws is new, [getUserIdFromSessionId]
    on that id resolves to the [uuid] of the row in the world the login
    left, and to [false] once [logout] was called with the id. *)
Theorem login_session_owner (u p : string) (user : users.row) (w : World) :
  u <> "" -> p <> "" ->
  find (has_username u) (tbl_users w) = Some user ->
  bcrypt_compare p (users.password user) = true ->
  no_session w (next_sid w) ->
  let w1 := after (login this (Some u) (Some p)) w in
  let w2 := after (logout this (Some (next_sid w))) w1 in
  result (getUserIdFromSessionId this (Some (next_sid w))) w1
  = Ok (Some (users.uuid user)) /\
  result (getUserIdFromSessionId this (Some (next_sid w))) w2 = Ok None.
Proof.
  intros Hu Hp Hfind Hcmp Hfresh w1 w2.
  assert (Hsid : next_sid w <> "").
  { pose proof (next_sid_length w) as Hlen. intros E. rewrite E in Hlen. discriminate. }
  destruct (login_succeeds this k Hknex u p user w Hu Hp Hfind Hcmp) as (_ & Hss & _).
  fold w1 in Hss. rewrite !getUserIdFromSessionId_result by exact Hsid. split.
  - rewrite Hss. apply no_session_find in Hfresh.
    rewrite (find_app_fresh _ _ (next_session this w (users.uuid user)) Hfresh);
      [reflexivity | apply String.eqb_refl].
  - pose proof (logout_no_session this k Hknex (next_sid w) w1 Hsid) as Hgone.
    fold w2 in Hgone. apply no_session_find in Hgone. rewrite Hgone. reflexivity.
Qed.

End SideBySide.

Section TwoLogins.

Context {B : Bcrypt} {L : BcryptLaws B}.
Variable this : Authentication.
Variable k : Knex.
Hypothesis Hknex : knex this = Some k.

(** X14. Two logins in a row, of the same identity or of two, give two
    sessions that are both valid: when each login finds its identity row
    with a matching password and each draws an id that no session row
    carries yet, [verifyToken] resolves to [true] on both tokens in the
    world the second login left, and [sessions] holds two rows more. *)
Theorem two_logins_both_valid (u1 p1 u2 p2 : string) (user1 user2 : users.row)
        (w : World) :
  u1 <> "" -> p1 <> "" -> u2 <> "" -> p2 <> "" ->
  find (has_username u1) (tbl_users w) = Some user1 ->
  bcrypt_compare p1 (users.password user1) = true ->
  find (has_username u2) (tbl_users w) = Some user2 ->
  bcrypt_compare p2 (users.password user2) = true ->
  let w1 := after (login this (Some u1) (Some p1)) w in
  let w2 := after (login this (Some u2) (Some p2)) w1 in
  no_session w (next_sid w) ->
  no_session w1 (next_sid w1) ->
  exists T1 T2,
    result (login this (Some u1) (Some p1)) w = Ok (LoginToken T1) /\
    result (login this (Some u2) (Some p2)) w1 = Ok (LoginToken T2) /\
    result (verifyToken this (Some T1)) w2 = Ok true /\
    result (verifyToken this (Some T2)) w2 = Ok true /\
    List.length (tbl_sessions w2) = 2 + List.length (tbl_sessions w).
Proof.
  intros Hu1 Hp1 Hu2 Hp2 Hf1 Hc1 Hf2 Hc2 w1 w2 Hfresh Hfresh1.
  destruct (login_succeeds this k Hknex u1 p1 user1 w Hu1 Hp1 Hf1 Hc1)
    as (R1 & Hss1 & Hus1 & _).
  fold w1 in Hss1, Hus1. rewrite <- Hus1 in Hf2.
  destruct (login_succeeds this k Hknex u2 p2 user2 w1 Hu2 Hp2 Hf2 Hc2)
    as (R2 & Hss2 & _).
  fold w2 in Hss2.
  exists (next_sid w ++ "." ++ next_secret w)%string,
         (next_sid w1 ++ "." ++ next_secret w1)%string.
  split; [exact R1|]. split; [exact R2|]. split; [|split].
  - rewrite <- (verify_next_session this k Hknex w w1 (users.uuid user1) Hfresh Hss1).
    apply (verifyToken_result_find this k Hknex _ (next_sid w) w2 w1
             (next_token_nonempty w)).
    + rewrite split_next_token. reflexivity.
    + rewrite Hss2, Hss1. apply no_session_find in Hfresh.
      rewrite (find_app_fresh _ _ (next_session this w (users.uuid user1)) Hfresh)
        by apply String.eqb_refl.
      apply find_app_some.
      apply find_app_fresh; [exact Hfresh | apply String.eqb_refl].
  - apply (verify_next_session this k Hknex w1 w2 (users.uuid user2) Hfresh1 Hss2).
  - rewrite Hss2, Hss1, !length_app. simpl. lia.
Qed.

End TwoLogins.

Lemma logout_spares_other_sessions_witness :
  result (verifyToken (B:=Plain.bcrypt) auth_hashing (Some alice_token))
         (after (logout auth_hashing (Some (next_sid session_world))) two_sessions_world)
  = Ok true.
Proof.
  change (Ok true)
    with (result (verifyToken (B:=Plain.bcrypt) auth_hashing (Some alice_token))
                 two_sessions_world).
  apply (logout_spares_other_sessions (B:=Plain.bcrypt) auth_hashing Connection eq_refl
           (next_sid session_world) alice_sid alice_token two_sessions_world).
  - apply String.eqb_neq. reflexivity.
  - discriminate.
  - apply String.eqb_neq. reflexivity.
  - reflexivity.
Defined.

Lemma existing_session_survives_witness :
  result (verifyToken (B:=Plain.bcrypt) auth_hashing (Some alice_token))
         (after (login (B:=Plain.bcrypt) auth_hashing (Some "alice") (Some "S3cret!"))
                session_world)
  = result (verifyToken (B:=Plain.bcrypt) auth_hashing (Some alice_token)) session_world.
Proof.
  eapply (existing_session_survives (B:=Plain.bcrypt) auth_hashing Connection eq_refl
            (Some "alice") (Some "S3cret!") alice_token alice_sid).
  - reflexivity.
  - discriminate.
  - reflexivity.
Defined.

Lemma login_session_owner_witness :
  result (getUserIdFromSessionId auth_hashing (Some alice_sid)) session_world
  = Ok (Some "abacadae-afb0-41b2-b3b4-b5b6b7b8b9ba"%string) /\
  result (getUserIdFromSessionId auth_hashing (Some alice_sid))
         (after (logout auth_hashing (Some alice_sid)) session_world)
  = Ok None.
Proof.
  eapply (login_session_owner (B:=Plain.bcrypt) auth_hashing Connection eq_refl
            "alice" "S3cret!" alice_row alice_world).
  - discriminate.
  - discriminate.
  - reflexivity.
  - reflexivity.
  - apply no_session_find. reflexivity.
Defined.

Lemma two_logins_both_valid_witness :
  exists T1 T2,
    result (login (B:=Plain.bcrypt) auth_hashing (Some "alice") (Some "S3cret!"))
           alice_world
    = Ok (LoginToken T1) /\
    result (login (B:=Plain.bcrypt) auth_hashing (Some "alice") (Some "S3cret!"))
           session_world
    = Ok (LoginToken T2) /\
    result (verifyToken (B:=Plain.bcrypt) auth_hashing (Some T1)) two_sessions_world
    = Ok true /\
    result (verifyToken (B:=Plain.bcrypt) auth_hashing (Some T2)) two_sessions_world
    = Ok true /\
    List.length (tbl_sessions two_sessions_world) = 2.
Proof.
  eapply (two_logins_both_valid (B:=Plain.bcrypt) (L:=Plain_laws) auth_hashing
            Connection eq_refl "alice" "S3cret!" "alice" "S3cret!" alice_row alice_row
            alice_world).
  - discriminate.
  - discriminate.
  - discriminate.
  - discriminate.
  - reflexivity.
  - reflexivity.
  - reflexivity.
  - reflexivity.
  - apply no_session_find. reflexivity.
  - apply no_session_find. reflexivity.
Defined.

(** ** The middleware along the life of a session *)

Lemma occurs_append (c : ascii) (s t : string) :
  JS.occurs c (s ++ t) = JS.occurs c s || JS.occurs c t.
Proof.
  induction s as [|a s IH]; simpl; [reflexivity|].
  rewrite IH. apply orb_assoc.
Qed.

Lemma next_token_no_space (w : World) :
  JS.occurs " " (next_sid w ++ "." ++ next_secret w) = false.
Proof.
  rewrite !occurs_append.
  assert (H : forall buf, JS.occurs " " (Buffer.toString_hex buf) = false).
  { intros buf. apply all_hex_no_sep; [reflexivity | apply toString_hex_all_hex]. }
  unfold next_sid, next_secret. rewrite !H. reflexivity.
Qed.

(** The credential of a header made of a scheme word, a space and a
    space-free credential. *)
Lemma bearer_scheme (scheme T : string) (ctx : option eauth.t) :
  JS.occurs " " scheme = false ->
  JS.occurs " " T = false ->
  bearer {| express.authorization := Some (scheme ++ " " ++ T)%string;
            express.eauth := ctx |}
  = Some T.
Proof.
  intros Hscheme HT. unfold bearer. cbn [express.authorization].
  change (" " ++ T)%string with (String " " T).
  rewrite (split_app _ _ _ Hscheme), (split_no_sep _ _ HT). reflexivity.
Qed.

Section Lifecycle.

Context {B : Bcrypt}.
Variable this : Authentication.

(** X15. A request that carries no credential is turned away before the
    store is asked anything: when the [authorization] header is absent, or
    has no space in it, or ends with its first space, the middleware answers
    401 "Unauthorized", leaves the request as it was and leaves the world
    exactly as it was, with no query sent. *)
Theorem middleware_without_credential (req : express.Request) (w : World) :
  express.authorization req = None \/
  (exists h, express.authorization req = Some h /\ JS.occurs " " h = false) \/
  (exists scheme,
      express.authorization req = Some (scheme ++ " ")%string /\
      JS.occurs " " scheme = false) ->
  express_middleware this req w
  = (Ok (req, express.StatusJson 401 "Unauthorized"), w).
Proof.
  intros H.
  assert (Hb : JS.provided (bearer req) = None).
  { unfold bearer. destruct H as [-> | [(h & -> & Hh) | (scheme & -> & Hs)]].
    - reflexivity.
    - rewrite (split_no_sep _ _ Hh). reflexivity.
    - change (scheme ++ " ")%string with (scheme ++ String " " "")%string.
      rewrite (split_app _ _ _ Hs). reflexivity. }
  unfold express_middleware, try_catch. cbv zeta. rewrite Hb. reflexivity.
Qed.

Variable k : Knex.
Hypothesis Hknex : knex this = Some k.

(** X16. After [logout], the middleware turns the session away: for a
    non-empty session id and a request whose credential has that id as its
    first segment, in the world [logout] left the middleware answers 401
    "Unauthorized" and leaves the request without context. *)
Theorem middleware_rejects_after_logout
        (sid T : string) (req : express.Request) (w : World) :
  sid <> "" ->
  bearer req = Some T ->
  JS.index (JS.split "." T) 0 = Some sid ->
  result (express_middleware this req) (after (logout this (Some sid)) w)
  = Ok (req, express.StatusJson 401 "Unauthorized").
Proof.
  intros Hsid Hb Hseg.
  assert (HT : T <> "") by (eapply split_head_nonempty; eauto).
  pose proof (logout_no_session this k Hknex sid w Hsid) as Hgone.
  apply no_session_find in Hgone.
  unfold result, express_middleware, try_catch. cbv zeta.
  rewrite Hb, (provided_str T HT). unfold bind at 1.
  rewrite (verifyToken_run this k Hknex T sid _ HT Hseg). cbv zeta.
  rewrite Hgone. reflexivity.
Qed.

Context {L : BcryptLaws B}.

(** X17. From login to the request context: let [login] find the identity
    row of a username with a matching password and draw a new session id,
    and let that row be the one the store returns for its [uuid].  Then, in
    the world the login left, a request whose [authorization] header is a
    space-free scheme word, a space and the token is passed on to [next]
    with [req.eauth.user] holding the username, the [uuid] of the row as
    [id] and the token itself. *)
Theorem middleware_admits_fresh_login
        (u p scheme : string) (user : users.row) (w : World) :
  u <> "" -> p <> "" ->
  find (has_username u) (tbl_users w) = Some user ->
  bcrypt_compare p (users.password user) = true ->
  no_session w (next_sid w) ->
  find (has_uuid (Some (users.uuid user))) (tbl_users w) = Some user ->
  JS.occurs " " scheme = false ->
  let T := (next_sid w ++ "." ++ next_secret w)%string in
  let req := request (Some (scheme ++ " " ++ T)%string) in
  result (login this (Some u) (Some p)) w = Ok (LoginToken T) /\
  result (express_middleware this req) (after (login this (Some u) (Some p)) w)
  = Ok ({| express.authorization := express.authorization req;
           express.eauth :=
             Some {| eauth.user :=
                       {| eauth.username := u;
                          eauth.id := Some (users.uuid user);
                          eauth.token := T |} |} |},
        express.Next).
Proof.
  intros Hu Hp Hfind Hcmp Hfresh Huuid Hscheme T req.
  destruct (login_succeeds this k Hknex u p user w Hu Hp Hfind Hcmp)
    as (Hres & Hss & Hus & _).
  split; [exact Hres|].
  set (w1 := after (login this (Some u) (Some p)) w) in *.
  assert (Hname : users.username user = u).
  { apply find_some in Hfind as [_ Hn]. now apply String.eqb_eq. }
  assert (Hb : bearer req = Some T)
    by (apply bearer_scheme; [exact Hscheme | apply next_token_no_space]).
  assert (HT : T <> "") by apply next_token_nonempty.
  assert (Hseg : JS.index (JS.split "." T) 0 = Some (next_sid w))
    by (unfold T; rewrite split_next_token; reflexivity).
  assert (Hsid : next_sid w <> "").
  { pose proof (next_sid_length w) as Hlen. intros E. rewrite E in Hlen. discriminate. }
  assert (Hrow : find (has_session_id (next_sid w)) (tbl_sessions w1)
                 = Some (next_session this w (users.uuid user))).
  { rewrite Hss. apply no_session_find in Hfresh.
    apply find_app_fresh; [exact Hfresh | apply String.eqb_refl]. }
  unfold result, express_middleware, try_catch. cbv zeta.
  rewrite Hb, (provided_str T HT). unfold bind at 1.
  rewrite (verifyToken_world this k T (next_sid w) w1 Hknex HT Hseg).
  pose proof (verify_next_session this k Hknex w w1 (users.uuid user) Hfresh Hss)
    as Hv.
  fold T in Hv. rewrite Hv.
  cbn [negb]. rewrite Hseg. unfold bind at 1.
  rewrite (getUserIdFromSessionId_run this k (next_sid w) _ Hknex Hsid).
  change (tbl_sessions (logged (FirstSessionsWhereId (next_sid w)) w1))
    with (tbl_sessions w1).
  rewrite Hrow. cbn [option_map next_session sessions.uuid].
  unfold bind, on_knex. rewrite Hknex.
  unfold users_select_where_uuid, record, bind, ret.
  cbn [tbl_users tbl_sessions logged fst snd]. rewrite Hus.
  destruct (filter_find_some _ _ _ Huuid) as [rest ->].
  rewrite Hname. reflexivity.
Qed.

End Lifecycle.

Lemma middleware_without_credential_witness :
  express_middleware (B:=Plain.bcrypt) auth_hashing (request (Some "Bearer"%string))
                     session_world
  = (Ok (request (Some "Bearer"%string), express.StatusJson 401 "Unauthorized"),
     session_world).
Proof.
  apply (middleware_without_credential (B:=Plain.bcrypt) auth_hashing
           (request (Some "Bearer"%string)) session_world).
  right. left. eexists. split; reflexivity.
Defined.

Lemma middleware_rejects_after_logout_witness :
  result (express_middleware (B:=Plain.bcrypt) auth_hashing
            (request (Some ("Bearer " ++ alice_token)%string)))
         (after (logout auth_hashing (Some alice_sid)) session_world)
  = Ok (request (Some ("Bearer " ++ alice_token)%string),
        express.StatusJson 401 "Unauthorized").
Proof.
  apply (middleware_rejects_after_logout (B:=Plain.bcrypt) auth_hashing Connection
           eq_refl alice_sid alice_token
           (request (Some ("Bearer " ++ alice_token)%string)) session_world).
  - discriminate.
  - reflexivity.
  - reflexivity.
Defined.

Lemma middleware_admits_fresh_login_witness :
  result (express_middleware (B:=Plain.bcrypt) auth_hashing
            (request (Some ("Bearer " ++ alice_token)%string)))
         session_world
  = Ok ({| express.authorization := Some ("Bearer " ++ alice_token)%string;
           express.eauth :=
             Some {| eauth.user :=
                       {| eauth.username := "alice";
                          eauth.id := Some (users.uuid alice_row);
                          eauth.token := alice_token |} |} |},
        express.Next).
Proof.
  apply (middleware_admits_fresh_login (B:=Plain.bcrypt) (L:=Plain_laws) auth_hashing
           Connection eq_refl "alice" "S3cret!" "Bearer" alice_row alice_world).
  - discriminate.
  - discriminate.
  - reflexivity.
  - reflexivity.
  - apply no_session_find. reflexivity.
  - reflexivity.
  - reflexivity.
Defined.

Lemma register_login_verify_witness :
  exists T,
    result (login (B:=Plain.bcrypt) auth_hashing (Some "alice") (Some "S3cret!"))
           alice_world
    = Ok (LoginToken T) /\
    result (verifyToken (B:=Plain.bcrypt) auth_hashing (Some T)) session_world
    = Ok true.
Proof.
  apply (register_login_verify (B:=Plain.bcrypt) (L:=Plain_laws) auth_hashing
           Connection eq_refl "alice" "S3cret!" empty_world).
  - discriminate.
  - discriminate.
  - reflexivity.
  - apply no_session_find. reflexivity.
Defined.

Lemma register_twice_witness :
  result (register (B:=Plain.bcrypt) auth_hashing (Some "alice") (Some "other"))
         alice_world
  = Ok conflict /\
  identities (after (register (B:=Plain.bcrypt) auth_hashing (Some "alice") (Some "other"))
                alice_world) "alice"
  = 1.
Proof.
  destruct (register_twice (B:=Plain.bcrypt) auth_hashing Connection eq_refl
              "alice" "S3cret!" "other" empty_world) as (R & _ & Hone);
    try discriminate; try reflexivity.
  split; [exact R | exact Hone].
Defined.

(** ** Order of work, and the token column without hashing *)

Section Order.

Context {B : Bcrypt}.
Variable this : Authentication.
Variable k : Knex.
Hypothesis Hknex : knex this = Some k.


(** X21. With token hashing disabled the [token] column holds the secret
    in clear: whenever [login] resolves to a token on such an instance, it
    has appended one session row whose [session_id] is the first segment of
    the token and whose [token] column is its second segment. *)
Theorem login_plain_stores_secret (username password : JS.Arg) (w : World) (T : string) :
  tokenHashing this = false ->
  result (login this username password) w = Ok (LoginToken T) ->
  exists row,
    tbl_sessions (after (login this username password) w) = tbl_sessions w ++ [row] /\
    JS.split "." T = [sessions.session_id row; sessions.token row].
Proof.
  intros Hmode H.
  apply login_token_inv in H
    as (k' & u & p & user & Hk & -> & Hu & -> & Hp & Hfind & Hcmp & ->).
  destruct (login_succeeds this k' Hk u p user w Hu Hp Hfind Hcmp) as (_ & Hss & _).
  exists (next_session this w (users.uuid user)). split; [exact Hss|].
  unfold next_session, next_stored. rewrite Hmode.
  cbn [sessions.session_id sessions.token]. apply split_next_token.
Qed.

(** X22. A token that verifies has an owner: with an initialised handle,
    when [verifyToken] resolves to [true] on a non-empty string whose first
    segment is not empty, [getUserIdFromSessionId] on that segment resolves
    to the [uuid] column of the session row the store returns for it, and
    not to [false]. *)
Theorem verified_token_has_owner (s sid : string) (w : World) :
  s <> "" -> sid <> "" ->
  JS.index (JS.split "." s) 0 = Some sid ->
  result (verifyToken this (Some s)) w = Ok true ->
  exists row,
    find (has_session_id sid) (tbl_sessions w) = Some row /\
    result (getUserIdFromSessionId this (Some sid)) w = Ok (Some (sessions.uuid row)) /\
    result (getUserIdFromSessionId this (Some sid))
           (after (verifyToken this (Some s)) w)
    = Ok (Some (sessions.uuid row)).
Proof.
  intros Hs Hsid Hseg Hv.
  destruct (verifyToken_true_session this k s sid w Hknex Hs Hseg Hv) as [row Hrow].
  exists row. split; [exact Hrow|].
  rewrite !(getUserIdFromSessionId_result this k Hknex) by exact Hsid.
  destruct (read_only_verifyToken this (Some s) w) as (_ & Hss & _).
  rewrite Hss, Hrow. auto.
Qed.

End Order.


Lemma login_plain_stores_secret_witness :
  exists row,
    tbl_sessions session_world_plain = tbl_sessions alice_world ++ [row] /\
    JS.split "." alice_token = [sessions.session_id row; sessions.token row].
Proof.
  apply (login_plain_stores_secret (B:=Plain.bcrypt) auth_plain
           (Some "alice") (Some "S3cret!") alice_world alice_token); reflexivity.
Defined.

Lemma verified_token_has_owner_witness :
  exists row,
    find (has_session_id alice_sid) (tbl_sessions session_world) = Some row /\
    result (getUserIdFromSessionId auth_hashing (Some alice_sid)) session_world
    = Ok (Some (sessions.uuid row)) /\
    result (getUserIdFromSessionId auth_hashing (Some alice_sid))
           (after (verifyToken (B:=Plain.bcrypt) auth_hashing (Some alice_token))
                  session_world)
    = Ok (Some (sessions.uuid row)).
Proof.
  apply (verified_token_has_owner (B:=Plain.bcrypt) auth_hashing Connection eq_refl
           alice_token alice_sid session_world); solve [discriminate | reflexivity].
Defined.

(** ** When the middleware admits a request *)

Lemma find_map_same {A} (f : A -> bool) (g : A -> A) (l : list A) :
  (forall a, f (g a) = f a) ->
  find f (map g l) = option_map g (find f l).
Proof.
  intros H. induction l as [|a l IH]; simpl; [reflexivity|].
  rewrite H. destruct (f a); [reflexivity | exact IH].
Qed.

Section Admission.

Context {B : Bcrypt}.
Variable this : Authentication.

Lemma verifyToken_true_knex (s : JS.Arg) (w : World) :
  result (verifyToken this s) w = Ok true -> exists k, knex this = Some k.
Proof.
  destruct (knex this) as [k|] eqn:Hk; [eauto|].
  unfold result, verifyToken, require_knex, bind. rewrite Hk. discriminate.
Qed.

Lemma middleware_admits (req req' : express.Request) (w : World) :
  admitted this req w req' ->
  result (express_middleware this req) w = Ok (req', express.Next).
Proof.
  intros (token & sid & srow & urow & Hb & Hv & Hseg & Hsid & Hs & Hu & ->).
  destruct (verifyToken_true_knex _ _ Hv) as [k Hk].
  pose proof Hb as Hb'. apply provided_Some in Hb' as [_ Htok].
  unfold result, express_middleware, try_catch. cbv zeta.
  rewrite Hb. unfold bind at 1.
  rewrite (verifyToken_world this k token sid w Hk Htok Hseg), Hv.
  cbn [negb]. rewrite Hseg. unfold bind at 1.
  rewrite (getUserIdFromSessionId_run this k sid _ Hk Hsid).
  change (tbl_sessions (logged (FirstSessionsWhereId sid) w)) with (tbl_sessions w).
  rewrite Hs. cbn [option_map]. unfold bind, on_knex. rewrite Hk.
  unfold users_select_where_uuid, record, bind, ret.
  cbn [tbl_users tbl_sessions logged fst snd].
  destruct (filter_find_some _ _ _ Hu) as [rest ->]. reflexivity.
Qed.

Lemma middleware_next_iff (req req' : express.Request) (w : World) :
  result (express_middleware this req) w = Ok (req', express.Next) <->
  admitted this req w req'.
Proof.
  split; [|apply middleware_admits].
  intros H.
  destruct (middleware_outcomes this req w)
    as (req'' & reply & R & [[-> _] | [-> Hadm]]);
    rewrite R in H; inversion H; subst. exact Hadm.
Qed.

(** Rewriting the [password] column changes neither the verdict on a token
    nor which request is admitted. *)
Lemma admitted_with_passwords (f : users.row -> string) (req req' : express.Request)
      (w : World) :
  admitted this req w req' -> admitted this req (with_passwords f w) req'.
Proof.
  intros (token & sid & srow & urow & Hb & Hv & Hseg & Hsid & Hs & Hu & ->).
  destruct (verifyToken_true_knex _ _ Hv) as [k Hk].
  pose proof Hb as Hb'. apply provided_Some in Hb' as [_ Htok].
  exists token, sid, srow,
    {| users.uuid := users.uuid urow;
       users.username := users.username urow;
       users.password := f urow |}.
  repeat split; auto.
  - rewrite <- Hv.
    apply (verifyToken_result_find this k Hk token sid _ w Htok Hseg). reflexivity.
  - cbn [with_passwords tbl_users].
    rewrite find_map_same by reflexivity. rewrite Hu. reflexivity.
Qed.

Lemma admitted_without_passwords (f : users.row -> string) (req req' : express.Request)
      (w : World) :
  admitted this req (with_passwords f w) req' -> admitted this req w req'.
Proof.
  intros (token & sid & srow & urow & Hb & Hv & Hseg & Hsid & Hs & Hu & ->).
  destruct (verifyToken_true_knex _ _ Hv) as [k Hk].
  pose proof Hb as Hb'. apply provided_Some in Hb' as [_ Htok].
  cbn [with_passwords tbl_users tbl_sessions] in Hs, Hu.
  rewrite find_map_same in Hu by reflexivity.
  destruct (find (has_uuid (Some (sessions.uuid srow))) (tbl_users w))
    as [urow0|] eqn:Hu0; [|discriminate].
  cbn [option_map] in Hu. inversion Hu; subst urow.
  exists token, sid, srow, urow0. repeat split; auto.
  rewrite <- Hv. symmetry.
  apply (verifyToken_result_find this k Hk token sid _ w Htok Hseg). reflexivity.
Qed.

Lemma middleware_ignores_passwords (f : users.row -> string) (req : express.Request)
      (w : World) :
  result (express_middleware this req) (with_passwords f w)
  = result (express_middleware this req) w.
Proof.
  destruct (middleware_outcomes this req w)
    as (req1 & reply1 & R1 & [[-> ->] | [-> H1]]).
  - destruct (middleware_outcomes this req (with_passwords f w))
      as (req2 & reply2 & R2 & [[-> ->] | [-> H2]]).
    + congruence.
    + apply admitted_without_passwords, middleware_admits in H2. congruence.
  - rewrite R1. apply middleware_admits, admitted_with_passwords. exact H1.
Qed.

(** C9. On every request and in every world the middleware completes
    without an exception escaping, in one of two ways: it answers with
    status 401 and the message "Unauthorized", the same answer whatever went
    wrong, and leaves the request as it was; or it calls [next].  It calls
    [next] exactly when the request carries a credential that [verifyToken]
    accepts, the first segment of the credential is a non-empty id for which
    the store returns a session row, and the store returns an identity row
    for the owner of that session; the request it hands on then has
    [req.eauth] set to exactly [{user: {username, id, token}}], with the
    username of the identity row, the owner's uuid and the credential
    itself.  What the middleware resolves to does not depend on the
    [password] column of any identity row. *)
Theorem C9_middleware_context_or_unauthorized (req : express.Request) (w : World) :
  (exists req' reply,
      result (express_middleware this req) w = Ok (req', reply) /\
      ((reply = express.StatusJson 401 "Unauthorized" /\ req' = req) \/
       reply = express.Next)) /\
  (forall req',
      result (express_middleware this req) w = Ok (req', express.Next) <->
      exists token sid srow urow,
        JS.provided (bearer req) = Some token /\
        result (verifyToken this (Some token)) w = Ok true /\
        JS.index (JS.split "." token) 0 = Some sid /\
        sid <> "" /\
        find (has_session_id sid) (tbl_sessions w) = Some srow /\
        find (has_uuid (Some (sessions.uuid srow))) (tbl_users w) = Some urow /\
        req' = {| express.authorization := express.authorization req;
                  express.eauth :=
                    Some {| eauth.user :=
                              {| eauth.username := users.username urow;
                                 eauth.id := Some (sessions.uuid srow);
                                 eauth.token := token |} |} |}) /\
  (forall f,
      result (express_middleware this req) (with_passwords f w)
      = result (express_middleware this req) w).
Proof.
  split; [|split].
  - destruct (middleware_outcomes this req w) as (req' & reply & R & Hcase).
    exists req', reply. split; [exact R|].
    destruct Hcase as [[-> ->] | [-> _]]; auto.
  - intros req'. apply middleware_next_iff.
  - intros f. apply middleware_ignores_passwords.
Qed.

End Admission.

Lemma C9_middleware_context_or_unauthorized_witness :
  result (express_middleware (B:=Plain.bcrypt) auth_hashing
            (request (Some ("Bearer " ++ alice_token)%string)))
         session_world
  = Ok ({| express.authorization := Some ("Bearer " ++ alice_token)%string;
           express.eauth :=
             Some {| eauth.user :=
                       {| eauth.username := "alice";
                          eauth.id := Some "abacadae-afb0-41b2-b3b4-b5b6b7b8b9ba"%string;
                          eauth.token := alice_token |} |} |},
        express.Next) /\
  result (express_middleware (B:=Plain.bcrypt) auth_hashing
            (request (Some ("Bearer " ++ alice_token)%string)))
         (with_passwords (fun _ => ""%string) session_world)
  = result (express_middleware (B:=Plain.bcrypt) auth_hashing
              (request (Some ("Bearer " ++ alice_token)%string)))
           session_world.
Proof.
  destruct (C9_middleware_context_or_unauthorized (B:=Plain.bcrypt) auth_hashing
              (request (Some ("Bearer " ++ alice_token)%string)) session_world)
    as (_ & Hiff & Hpw).
  split; [|apply Hpw].
  apply Hiff.
  exists alice_token, alice_sid,
    {| sessions.session_id := alice_sid;
       sessions.token := next_stored (B:=Plain.bcrypt) auth_hashing alice_world;
       sessions.uuid := "abacadae-afb0-41b2-b3b4-b5b6b7b8b9ba" |},
    alice_row.
  repeat split; try reflexivity. discriminate.
Defined.
